(** * Pipeline-Diamond: the [Visual] of [src/visual.ts]

    A shallow embedding of the Power BI visual that draws a pipeline
    diagram: the data converter, the derivation of the category colours,
    the d3 rendering steps over a small model of the DOM, and the
    exception wrapper around [update]. *)

From Stdlib Require Import List String Ascii ZArith Bool Arith Lia.
From Stdlib Require Import Sorting.Sorted Sorting.Permutation.
From Stdlib Require Import DecimalString.
Import ListNotations.

Set Warnings "-register-all".

Open Scope string_scope.
Open Scope Z_scope.
Open Scope list_scope.

(** JavaScript's [+] on strings. *)
Infix "+:+" := String.append (at level 60, right associativity).

(* ================================================================= *)
(** ** JavaScript values *)

(** The operations the visual performs on JavaScript numbers (IEEE
    doubles): the integer literals it writes, [+], binary and unary [-],
    truthiness and [Number.prototype.toString]. *)
Class JSNumber (number : Type) : Type := {
  num_lit : Z -> number;
  num_add : number -> number -> number;
  num_sub : number -> number -> number;
  num_neg : number -> number;
  num_truthy : number -> bool;
  num_toString : number -> string
}.

(** Integer-valued numbers, printed in decimal. *)
Definition Z_toString (z : Z) : string := NilZero.string_of_int (Z.to_int z).

#[export] Instance Z_JSNumber : JSNumber Z := {|
  num_lit := fun z => z;
  num_add := Z.add;
  num_sub := Z.sub;
  num_neg := Z.opp;
  num_truthy := fun z => negb (z =? 0);
  num_toString := Z_toString
|}.

(** [powerbi.PrimitiveValue]: the value of a table cell.  A [Date] is
    only ever asked for its [toString], so it is kept as that text. *)
Inductive PrimitiveValue {number : Type} : Type :=
| PVUndefined
| PVNull
| PVBool (b : bool)
| PVString (s : string)
| PVNumber (n : number)
| PVDate (shown : string).
Arguments PrimitiveValue : clear implicits.

Section Values.
Context {number : Type} {NUM : JSNumber number}.

(** The condition of [v ? a : b]. *)
Definition truthy (v : PrimitiveValue number) : bool :=
  match v with
  | PVUndefined | PVNull => false
  | PVBool b => b
  | PVString s => negb (s =? "")%string
  | PVNumber n => num_truthy n
  | PVDate _ => true
  end.

(** [v.toString()]; the source calls it on truthy values only, so the
    two cases that would raise are never evaluated. *)
Definition toString (v : PrimitiveValue number) : string :=
  match v with
  | PVUndefined => "undefined"
  | PVNull => "null"
  | PVBool b => if b then "true" else "false"
  | PVString s => s
  | PVNumber n => num_toString n
  | PVDate shown => shown
  end.

End Values.

(** A JavaScript string or [null]/[undefined] ([None]). *)
Definition jsstring := option string.

Definition jsstring_eqb (a b : jsstring) : bool :=
  match a, b with
  | Some x, Some y => (x =? y)%string
  | None, None => true
  | _, _ => false
  end.

(** The index variables of [CONVERTER]: a number or [undefined]. *)
Inductive index : Type :=
| IUndefined
| INum (i : Z).

(** [row[ix]] on an array of cells: anything but an index inside the
    array reads as [undefined]. *)
Definition row_get {number : Type} (row : list (PrimitiveValue number)) (ix : index)
  : PrimitiveValue number :=
  match ix with
  | IUndefined => PVUndefined
  | INum i => if i <? 0 then PVUndefined else nth (Z.to_nat i) row PVUndefined
  end.

(** Thrown values.  The visual itself throws nothing; what reaches the
    wrapper are the engine's [TypeError]s. *)
Inductive exn : Type :=
| TypeError (message : string).

(** The thrown value of reading a property of [undefined] or [null]. *)
Definition cannot_read (what property : string) : exn :=
  TypeError ("Cannot read properties of " +:+ what +:+ " (reading '" +:+ property +:+ "')").

(** How an evaluation ends: with a value, or with a thrown one. *)
Inductive completion (A : Type) : Type :=
| Normal (a : A)
| Throw (e : exn).
Arguments Normal {A} a.
Arguments Throw {A} e.

(* ================================================================= *)
(** ** The data the host passes *)

(** [DataViewMetadataColumn]; [roles] holds the own keys of the column's
    [roles] object, which is all [hasOwnProperty] looks at. *)
Record DataViewMetadataColumn : Type := {
  displayName : string;
  roles : list string
}.

Definition hasOwnProperty (keys : list string) (name : string) : bool :=
  existsb (String.eqb name) keys.

Record DataViewTable {number : Type} : Type := {
  columns : list DataViewMetadataColumn;
  rows : list (list (PrimitiveValue number))
}.
Arguments DataViewTable : clear implicits.

(** [DataViewObjects]: object name, then property name. *)
Definition DataViewObject (T : Type) : Type := list (string * T).
Definition DataViewObjects (T : Type) : Type := list (string * DataViewObject T).

Record DataView {number : Type} : Type := {
  metadata_objects : option (DataViewObjects (PrimitiveValue number));
  table : option (DataViewTable number)
}.
Arguments DataView : clear implicits.

(** The [Pipeline] interface; [None] is [null]. *)
Record Pipeline : Type := {
  Title : jsstring;
  Phase : jsstring;
  Category : jsstring;
  Name : jsstring
}.

(* ================================================================= *)
(** ** [Visual.CONVERTER] *)

Record located : Type := {
  _titleIndex : index;
  _phaseIndex : index;
  _categoryIndex : index;
  _nameIndex : index
}.

(** [let _titleIndex = -1, _phaseIndex = -1, _categoryIndex = -1, _nameIndex;] *)
Definition located_init : located :=
  {| _titleIndex := INum (-1); _phaseIndex := INum (-1);
     _categoryIndex := INum (-1); _nameIndex := IUndefined |}.

(** The body of the loop over the columns, at counter [ti]. *)
Definition locate_step (ix : located) (ti : Z) (c : DataViewMetadataColumn) : located :=
  if hasOwnProperty (roles c) "Title" then
    {| _titleIndex := INum ti; _phaseIndex := _phaseIndex ix;
       _categoryIndex := _categoryIndex ix; _nameIndex := _nameIndex ix |}
  else if hasOwnProperty (roles c) "Phase" then
    {| _titleIndex := _titleIndex ix; _phaseIndex := INum ti;
       _categoryIndex := _categoryIndex ix; _nameIndex := _nameIndex ix |}
  else if hasOwnProperty (roles c) "Category" then
    {| _titleIndex := _titleIndex ix; _phaseIndex := _phaseIndex ix;
       _categoryIndex := INum ti; _nameIndex := _nameIndex ix |}
  else if hasOwnProperty (roles c) "Name" then
    {| _titleIndex := _titleIndex ix; _phaseIndex := _phaseIndex ix;
       _categoryIndex := _categoryIndex ix; _nameIndex := INum ti |}
  else ix.

(** [for (let ti = 0; ti < _columns.length; ti++) ...], entered at [ti]
    with the columns from [ti] on. *)
Fixpoint locate_loop (cols : list DataViewMetadataColumn) (ti : Z) (ix : located) : located :=
  match cols with
  | [] => ix
  | c :: cs => locate_loop cs (ti + 1) (locate_step ix ti c)
  end.

Definition locate (cols : list DataViewMetadataColumn) : located :=
  locate_loop cols 0 located_init.

Section Converter.
Context {number : Type} {NUM : JSNumber number}.

(** [row[i] ? row[i].toString() : null] *)
Definition cell_text (row : list (PrimitiveValue number)) (ix : index) : jsstring :=
  if truthy (row_get row ix) then Some (toString (row_get row ix)) else None.

(** The object literal [dp] built for one row. *)
Definition make_dp (ix : located) (row : list (PrimitiveValue number)) : Pipeline :=
  {| Title := cell_text row (_titleIndex ix);
     Phase := cell_text row (_phaseIndex ix);
     Category := cell_text row (_categoryIndex ix);
     Name := cell_text row (_nameIndex ix) |}.

(** [for (let i = 0; i < _rows.length; i++) { ...; resultData.push(dp); }] *)
Definition convert_rows (ix : located) (_rows : list (list (PrimitiveValue number)))
  : list Pipeline :=
  fold_left (fun resultData row => resultData ++ [make_dp ix row]) _rows [].

(** [CONVERTER(dataView, host)]; [host] is not used by the body.  Reading
    [.table] of a missing data view, or [.rows] of a missing table,
    raises. *)
Definition CONVERTER (dataView : option (DataView number)) : completion (list Pipeline) :=
  match dataView with
  | None => Throw (cannot_read "undefined" "table")
  | Some dv =>
      match table dv with
      | None => Throw (cannot_read "undefined" "rows")
      | Some tableView =>
          Normal (convert_rows (locate (columns tableView)) (rows tableView))
      end
  end.

End Converter.

(* ================================================================= *)
(** ** Strings and arrays of the JavaScript library *)

(** Strings are sequences of 8-bit code units; on them the order of the
    code units is the order [String.leb] compares by. *)

(** [s.split(sep)] for a one-character separator: never empty, and the
    empty string splits into one empty piece. *)
Fixpoint split (sep : ascii) (s : string) : list string :=
  match s with
  | EmptyString => [EmptyString]
  | String c rest =>
      if Ascii.eqb c sep then EmptyString :: split sep rest
      else match split sep rest with
           | [] => [String c EmptyString]
           | w :: ws => String c w :: ws
           end
  end.

(** [toLowerCase] on one code unit below 256: the ASCII capitals and the
    Latin-1 capitals (all of 192..222 but the multiplication sign). *)
Definition lower_ascii (c : ascii) : ascii :=
  let n := N_of_ascii c in
  if ((65 <=? n) && (n <=? 90))%N then ascii_of_N (n + 32)
  else if ((192 <=? n) && (n <=? 222) && negb (n =? 215))%N then ascii_of_N (n + 32)
  else c.

Fixpoint toLowerCase (s : string) : string :=
  match s with
  | EmptyString => EmptyString
  | String c rest => String (lower_ascii c) (toLowerCase rest)
  end.

(** [array.slice(0, n)] *)
Definition slice0 {A : Type} (n : nat) (l : list A) : list A := firstn n l.

(** [array.indexOf(v)] with [===] on strings and [null]; [-1] when absent. *)
Fixpoint indexOf (self : list jsstring) (v : jsstring) : Z :=
  match self with
  | [] => -1
  | x :: xs =>
      if jsstring_eqb x v then 0
      else let r := indexOf xs v in if r <? 0 then -1 else r + 1
  end.

(** [array.filter((v, i, self) => ...)], entered at index [i]. *)
Fixpoint filter_from {A : Type} (f : A -> Z -> bool) (i : Z) (l : list A) : list A :=
  match l with
  | [] => []
  | v :: vs => if f v i then v :: filter_from f (i + 1) vs else filter_from f (i + 1) vs
  end.

(** [array.map((d, i) => ...)], entered at index [i]. *)
Fixpoint map_from {A B : Type} (f : A -> nat -> B) (i : nat) (l : list A) : list B :=
  match l with
  | [] => []
  | d :: ds => f d i :: map_from f (S i) ds
  end.

(** [ToString] of an array element that is a string or [null]. *)
Definition sort_key (v : jsstring) : string :=
  match v with
  | Some s => s
  | None => "null"
  end.

(** The default comparator of [Array.prototype.sort]: elements compare
    by the code units of their string forms. *)
Definition sort_leb (a b : jsstring) : bool := String.leb (sort_key a) (sort_key b).

(** [array.sort()]: the sort is stable, so its result is the one of a
    stable insertion sort. *)
Fixpoint sort_insert (v : jsstring) (sorted : list jsstring) : list jsstring :=
  match sorted with
  | [] => [v]
  | w :: ws => if sort_leb v w then v :: w :: ws else w :: sort_insert v ws
  end.

Fixpoint sort (l : list jsstring) : list jsstring :=
  match l with
  | [] => []
  | v :: vs => sort_insert v (sort vs)
  end.

(* ================================================================= *)
(** ** Settings *)

(** Modelled from the spec: the settings class of [settings.ts], which is
    not among the sources.  The spec lists a title text, a comma-separated
    phase list, an optional comma-separated category list, an optional
    image URL and a layout mode; an optional one may be absent ([None])
    or empty, and both are falsy. *)
Record PipelineSettings : Type := {
  title : string;
  phases : string;
  categories : jsstring;
  imgURL : jsstring;
  layout : string
}.

Record VisualSettings : Type := {
  pipeline : PipelineSettings
}.

(** Truthiness of a string that may be missing. *)
Definition jsstring_truthy (s : jsstring) : bool :=
  match s with
  | Some x => negb (x =? "")%string
  | None => false
  end.

(** String concatenation with a value that may be [undefined]. *)
Definition show_undefined (s : option string) : string :=
  match s with
  | Some x => x
  | None => "undefined"
  end.

(* ================================================================= *)
(** ** The derived category colours *)

(** The literal [colors] of [update]. *)
Definition colors : list string :=
  [ "#2ECC71"; "#336EFF"; "#641E16"; "#FF5733"; "#3498DB"; "#4A235A"; "#154360";
    "#0B5345"; "#784212"; "#424949"; "#17202A"; "#E74C3C"; "#00ff00"; "#0000ff";
    "#252D48" ]%string.

Record CategoryColor : Type := {
  category : jsstring;
  color : option string
}.

(** Lines 131-138: the category list, from the setting or from the
    records at hand, then sorted. *)
Definition categoryData_of (s : VisualSettings) (pipelineData : list Pipeline) : list jsstring :=
  let observed :=
    let self := map Category pipelineData in
    filter_from (fun v i => indexOf self v =? i) 0 self in
  let categoryData :=
    match categories (pipeline s) with
    | Some configured =>
        if jsstring_truthy (Some configured) then map Some (split "," configured)
        else observed
    | None => observed
    end in
  sort categoryData.

(** Lines 139-144. *)
Definition categoryColorData_of (categoryData : list jsstring) : list CategoryColor :=
  map_from (fun d i => {| category := d; color := nth_error colors i |}) 0%nat categoryData.

(* ================================================================= *)
(** ** The document *)

(** A DOM node: an element with its attributes and children, or a text
    node. *)
Inductive node : Type :=
| Elem (tag : string) (attrs : list (string * string)) (children : list node)
| Text (data : string).

(** [element.getAttribute(name)] *)
Fixpoint get_attr (name : string) (attrs : list (string * string)) : option string :=
  match attrs with
  | [] => None
  | (k, v) :: rest => if (k =? name)%string then Some v else get_attr name rest
  end.

(** [element.setAttribute(name, value)]: an attribute keeps its place
    when it is set again, a new one comes last. *)
Fixpoint set_attr (name value : string) (attrs : list (string * string))
  : list (string * string) :=
  match attrs with
  | [] => [(name, value)]
  | (k, v) :: rest =>
      if (k =? name)%string then (k, value) :: rest else (k, v) :: set_attr name value rest
  end.

(** [selection.attr(name, value)] on one node. *)
Definition attr (name value : string) (n : node) : node :=
  match n with
  | Elem tag attrs kids => Elem tag (set_attr name value attrs) kids
  | other => other
  end.

(** [selection.append(tag)] on one node: the new element and the parent
    that now ends with it. *)
Definition create (tag : string) : node := Elem tag [] [].

Definition append_child (child : node) (parent : node) : node :=
  match parent with
  | Elem tag attrs kids => Elem tag attrs (kids ++ [child])
  | other => other
  end.

(** Assigning [textContent]: the children become one text node, or none
    for the empty string. *)
Definition text_nodes (s : string) : list node :=
  if (s =? "")%string then [] else [Text s].

Definition text (value : string) (n : node) : node :=
  match n with
  | Elem tag attrs _ => Elem tag attrs (text_nodes value)
  | other => other
  end.

(** The browser's HTML parser: the nodes that markup assigned to
    [innerHTML] turns into.  Elements written in the markup are elements
    of the document like any other, with the classes the markup gives
    them. *)
Class Browser : Type := {
  parse_html : string -> list node
}.

(** Assigning [innerHTML]: the children become the parsed markup, none
    for the empty string. *)
Definition html_nodes {BROWSER : Browser} (s : string) : list node :=
  if (s =? "")%string then [] else parse_html s.

Definition html {BROWSER : Browser} (value : string) (n : node) : node :=
  match n with
  | Elem tag attrs _ => Elem tag attrs (html_nodes value)
  | other => other
  end.

Definition is_element (n : node) : bool :=
  match n with
  | Elem _ _ _ => true
  | _ => false
  end.

(** [selection.selectAll('*').remove()] on one node: every element below
    it leaves the tree; text directly under it stays. *)
Definition remove_all_elements (n : node) : node :=
  match n with
  | Elem tag attrs kids =>
      Elem tag attrs (filter (fun k => match k with Text _ => true | _ => false end) kids)
  | other => other
  end.

(** The white space that separates the tokens of a [class] attribute. *)
Definition is_space (c : ascii) : bool :=
  let n := N_of_ascii c in
  ((n =? 32) || (n =? 9) || (n =? 10) || (n =? 12) || (n =? 13))%N.

Fixpoint class_tokens_from (cur : string) (s : string) : list string :=
  match s with
  | EmptyString => if (cur =? "")%string then [] else [cur]
  | String c rest =>
      if is_space c then
        (if (cur =? "")%string then class_tokens_from "" rest
         else cur :: class_tokens_from "" rest)
      else class_tokens_from (cur +:+ String c EmptyString) rest
  end.

Definition class_tokens (s : string) : list string := class_tokens_from "" s.

(** Whether the selector [.cls] matches the node. *)
Definition has_class (cls : string) (n : node) : bool :=
  match n with
  | Elem _ attrs _ =>
      match get_attr "class" attrs with
      | Some v => existsb (String.eqb cls) (class_tokens v)
      | None => false
      end
  | _ => false
  end.

(** [querySelector]: the first node in document order that satisfies
    [p], if any; with [f] applied to it, the tree after a d3 operation
    on the selection ([None]: the selection was empty). *)
Fixpoint update_first (p : node -> bool) (f : node -> node) (n : node) : option node :=
  if p n then Some (f n)
  else
    match n with
    | Elem tag attrs kids =>
        let fix among (l : list node) : option (list node) :=
          match l with
          | [] => None
          | k :: ks =>
              match update_first p f k with
              | Some k' => Some (k' :: ks)
              | None =>
                  match among ks with
                  | Some ks' => Some (k :: ks')
                  | None => None
                  end
              end
          end in
        match among kids with
        | Some kids' => Some (Elem tag attrs kids')
        | None => None
        end
    | _ => None
    end.

Fixpoint update_first_among (p : node -> bool) (f : node -> node) (l : list node)
  : option (list node) :=
  match l with
  | [] => None
  | k :: ks =>
      match update_first p f k with
      | Some k' => Some (k' :: ks)
      | None =>
          match update_first_among p f ks with
          | Some ks' => Some (k :: ks')
          | None => None
          end
      end
  end.

Fixpoint find_first (p : node -> bool) (n : node) : option node :=
  if p n then Some n
  else
    match n with
    | Elem _ _ kids =>
        let fix among (l : list node) : option node :=
          match l with
          | [] => None
          | k :: ks =>
              match find_first p k with
              | Some m => Some m
              | None => among ks
              end
          end in
        among kids
    | _ => None
    end.

Fixpoint find_first_among (p : node -> bool) (l : list node) : option node :=
  match l with
  | [] => None
  | k :: ks =>
      match find_first p k with
      | Some m => Some m
      | None => find_first_among p ks
      end
  end.

(* ================================================================= *)
(** ** The visual's state and its effects *)

(** The notifications sent to the host's event service. *)
Inductive host_event : Type :=
| RenderingStarted
| RenderingFinished.

(** The fields of a [Visual] that change, with the three [div]s the
    constructor appends to the host's element (in this order: they are
    the document as far as the visual's selectors are concerned), and
    the notifications the host has received so far. *)
Record Visual : Type := {
  header : node;
  target : node;
  footer : node;
  settings : option VisualSettings;
  notified : list host_event
}.

Definition set_header (h : node) (this : Visual) : Visual :=
  {| header := h; target := target this; footer := footer this;
     settings := settings this; notified := notified this |}.

Definition set_target (t : node) (this : Visual) : Visual :=
  {| header := header this; target := t; footer := footer this;
     settings := settings this; notified := notified this |}.

Definition set_footer (f : node) (this : Visual) : Visual :=
  {| header := header this; target := target this; footer := f;
     settings := settings this; notified := notified this |}.

Definition set_settings (s : VisualSettings) (this : Visual) : Visual :=
  {| header := header this; target := target this; footer := footer this;
     settings := Some s; notified := notified this |}.

Definition notify (e : host_event) (this : Visual) : Visual :=
  {| header := header this; target := target this; footer := footer this;
     settings := settings this; notified := notified this ++ [e] |}.

(** A method body: it runs on the visual, changes it, and returns or
    throws. *)
Definition M (A : Type) : Type := Visual -> completion A * Visual.

Definition ret {A : Type} (a : A) : M A := fun this => (Normal a, this).

Definition throw {A : Type} (e : exn) : M A := fun this => (Throw e, this).

Definition bind {A B : Type} (m : M A) (k : A -> M B) : M B :=
  fun this =>
    match m this with
    | (Normal a, this') => k a this'
    | (Throw e, this') => (Throw e, this')
    end.

(** [try { body } catch (e) { handler(e) }] *)
Definition try_catch {A : Type} (body : M A) (handler : exn -> M A) : M A :=
  fun this =>
    match body this with
    | (Normal a, this') => (Normal a, this')
    | (Throw e, this') => handler e this'
    end.

Definition modify (f : Visual -> Visual) : M unit := fun this => (Normal tt, f this).

Definition lift {A : Type} (c : completion A) : M A :=
  match c with
  | Normal a => ret a
  | Throw e => throw e
  end.

Declare Scope visual_scope.
Delimit Scope visual_scope with visual.
Notation "x <- m ;; k" := (bind m (fun x => k))
  (at level 100, m at next level, right associativity) : visual_scope.
Notation "m ;; k" := (bind m (fun _ => k))
  (at level 100, right associativity) : visual_scope.

(** [d3.select(selector)] followed by an operation [f] on the selection:
    the first match in document order, the header's subtree first, then
    the content root's, then the footer's.  [None]: nothing matched. *)
Definition select_update (p : node -> bool) (f : node -> node) (this : Visual) : option Visual :=
  match update_first p f (header this) with
  | Some h => Some (set_header h this)
  | None =>
      match update_first p f (target this) with
      | Some t => Some (set_target t this)
      | None =>
          match update_first p f (footer this) with
          | Some ft => Some (set_footer ft this)
          | None => None
          end
      end
  end.

Definition select (p : node -> bool) (this : Visual) : option node :=
  match find_first p (header this) with
  | Some n => Some n
  | None =>
      match find_first p (target this) with
      | Some n => Some n
      | None => find_first p (footer this)
      end
  end.

(** An operation applied to each element of a selection in turn, until
    one application throws: the elements as they are then, and what was
    thrown. *)
Fixpoint each {A : Type} (f : A -> completion A) (sel : list A) : list A * option exn :=
  match sel with
  | [] => ([], None)
  | x :: xs =>
      match f x with
      | Throw e => (x :: xs, Some e)
      | Normal y => let (ys, r) := each f xs in (y :: ys, r)
      end
  end.

(** The same over the groups of a nested selection. *)
Fixpoint each_in_groups {A : Type} (f : A -> completion A) (groups : list (list A))
  : list (list A) * option exn :=
  match groups with
  | [] => ([], None)
  | g :: gs =>
      match each f g with
      | (g', Some e) => (g' :: gs, Some e)
      | (g', None) => let (gs', r) := each_in_groups f gs in (g' :: gs', r)
      end
  end.

(** An operation on the element a selection appended last to [parent]. *)
Fixpoint map_last {A : Type} (f : A -> A) (l : list A) : list A :=
  match l with
  | [] => []
  | [x] => [f x]
  | x :: xs => x :: map_last f xs
  end.

Definition on_last_child (f : node -> node) (parent : node) : node :=
  match parent with
  | Elem tag attrs kids => Elem tag attrs (map_last f kids)
  | other => other
  end.

(** [s ? s.toString() : ''] *)
Definition text_or_empty (s : jsstring) : string :=
  match s with
  | Some x => if negb (x =? "")%string then x else ""%string
  | None => ""%string
  end.

(* ================================================================= *)
(** ** The [Visual] class *)

Record Viewport {number : Type} : Type := {
  height : number;
  width : number
}.
Arguments Viewport : clear implicits.

Record VisualUpdateOptions {number : Type} : Type := {
  viewport : Viewport number;
  dataViews : option (list (DataView number))
}.
Arguments VisualUpdateOptions : clear implicits.

(** [constructor(options)]: three empty [div]s under the host's element. *)
Definition constructor : Visual :=
  {| header := create "div"; target := create "div"; footer := create "div";
     settings := None; notified := [] |}.

(** [this.settings.<...>]: [this.settings] is [undefined] until the first
    [update]. *)
Definition this_settings : M VisualSettings :=
  fun this =>
    match settings this with
    | Some s => (Normal s, this)
    | None => (Throw (cannot_read "undefined" "pipeline"), this)
    end.

(** The double quote character, as a string. *)
Definition quote : string := String (ascii_of_nat 34) EmptyString.

(** The callback given to [.html] in [renderLayout]. *)
Definition band_html (s : VisualSettings) : string :=
  if jsstring_truthy (imgURL (pipeline s)) then
    "<img src=" +:+ quote +:+ text_or_empty (imgURL (pipeline s)) +:+ quote +:+ "/>"
  else "".

(** [renderLayout()] *)
Definition renderLayout {BROWSER : Browser} : M unit :=
  (s <- this_settings ;;
   if (toLowerCase (layout (pipeline s)) =? "header")%string then
     modify (fun this =>
       set_header (html (band_html s) (attr "class" "visual-header" (header this))) this)
   else if (toLowerCase (layout (pipeline s)) =? "footer")%string then
     modify (fun this =>
       set_footer (html (band_html s) (attr "class" "visual-footer" (footer this))) this)
   else ret tt)%visual.

(** One column of the phase bar (lines 198-217). *)
Definition phase_element (d : string) : node :=
  let phase := attr "class" "phase" (create "div") in
  let phase := append_child (text d (attr "class" "phase-text" (create "p"))) phase in
  let phase := append_child (attr "class" "phase-arrow" (create "div")) phase in
  let phase := append_child (attr "class" "phase-rope" (create "div")) phase in
  append_child (attr "class" "phase-rope-circle" (create "div")) phase.

(** Lines 239-240 and 249-250: the first entry of the mapping for the
    record's category; reading [.color] of a missing one raises. *)
Definition color_style (categoryColorData : list CategoryColor) (d : Pipeline)
  : completion string :=
  match filter (fun cd => jsstring_eqb (category cd) (Category d)) categoryColorData with
  | moAcolor :: _ => Normal ("color:" +:+ show_undefined (color moAcolor) +:+ ";")
  | [] => Throw (cannot_read "undefined" "color")
  end.

(** A bound element of the [companies] selection: its datum and the
    [div.company] as built so far. *)
Definition bound : Type := (Pipeline * node)%type.

(** [.attr('style', d => ...)] on the paragraphs appended last. *)
Definition style_last (categoryColorData : list CategoryColor) (c : bound) : completion bound :=
  match color_style categoryColorData (fst c) with
  | Normal s => Normal (fst c, on_last_child (attr "style" s) (snd c))
  | Throw e => Throw e
  end.

(** Lines 185-227 put together around the company elements of each
    phase: the [div.main-content] appended to the content root. *)
Definition main_content (title_text : list node) (phaseData : list string)
  (companies : list (list node)) : node :=
  let mainContent := attr "class" "main-content" (create "div") in
  let head := append_child (Elem "p" [] title_text) (attr "class" "header" (create "div")) in
  let mainContent := append_child head mainContent in
  let pipelineWrap := attr "class" "pipeline-wrap" (create "div") in
  let pipelineBar :=
    Elem "div" [("class", "pipeline-bar")] (map phase_element phaseData) in
  let pipelineWrap := append_child pipelineBar pipelineWrap in
  let companiesWrap :=
    Elem "div" [("class", "companies-wrap")]
      (map (fun kids => Elem "div" [("class", "phase-companies")] kids) companies) in
  let pipelineWrap := append_child companiesWrap pipelineWrap in
  append_child pipelineWrap mainContent.

(** [renderPipelineReport(phaseData, pipelineData, categoryColorData)].
    The d3 calls change the document as they go, so when a style
    callback throws the content root keeps what was built until then. *)
Definition renderPipelineReport (phaseData : list string) (pipelineData : list Pipeline)
  (categoryColorData : list CategoryColor) : M unit :=
  fun this =>
    match settings this with
    | None =>
        (* line 190: the header paragraph is appended, its text is not set *)
        let mainContent := attr "class" "main-content" (create "div") in
        let head := append_child (create "p") (attr "class" "header" (create "div")) in
        (Throw (cannot_read "undefined" "pipeline"),
         set_target (append_child (append_child head mainContent) (target this)) this)
    | Some s =>
        let title_text := text_nodes (title (pipeline s)) in
        let finish (r : completion unit) (companies : list (list bound)) :=
          (r, set_target
                (append_child (main_content title_text phaseData (map (map snd) companies))
                   (target this)) this) in
        (* lines 228-234 *)
        let companies : list (list bound) :=
          map (fun pd =>
                 map (fun d => (d, attr "class" "company" (create "div")))
                   (filter (fun d => jsstring_eqb (Phase d) (Some pd)) pipelineData))
            phaseData in
        (* lines 236-237 *)
        let companies :=
          map (map (fun c : bound =>
                      (fst c, append_child (attr "class" "company-name" (create "p")) (snd c))))
            companies in
        (* lines 238-241 *)
        match each_in_groups (style_last categoryColorData) companies with
        | (companies, Some e) => finish (Throw e) companies
        | (companies, None) =>
            (* lines 242-244 *)
            let companies :=
              map (map (fun c : bound =>
                          (fst c, on_last_child (text (text_or_empty (Title (fst c)))) (snd c))))
                companies in
            (* lines 246-247 *)
            let companies :=
              map (map (fun c : bound =>
                          (fst c,
                           append_child (attr "class" "product-name" (create "p")) (snd c))))
                companies in
            (* lines 248-250 *)
            match each_in_groups (style_last categoryColorData) companies with
            | (companies, Some e) => finish (Throw e) companies
            | (companies, None) =>
                (* lines 251-253 *)
                let companies :=
                  map (map (fun c : bound =>
                              (fst c,
                               on_last_child (text (text_or_empty (Name (fst c)))) (snd c))))
                    companies in
                finish (Normal tt) companies
            end
        end
    end.

(** One entry of the legend (lines 261-272). *)
Definition legend_element (d : CategoryColor) : node :=
  let p := attr "style" ("color:" +:+ show_undefined (color d) +:+ ";") (create "p") in
  let p := text (text_or_empty (category d)) p in
  append_child p (attr "class" "legend" (create "div")).

(** [getCategoricalObjectValue(objects, index, objectName, propertyName,
    defaultValue)]; a property holds a value or [undefined] ([None]),
    and [index] is not used by the body. *)
Fixpoint lookup {V : Type} (name : string) (o : list (string * V)) : option V :=
  match o with
  | [] => None
  | (k, v) :: rest => if (k =? name)%string then Some v else lookup name rest
  end.

Definition getCategoricalObjectValue {T : Type}
  (objects : option (DataViewObjects (option T))) (objectName propertyName : string)
  (defaultValue : T) : T :=
  match objects with
  | Some objects =>
      match lookup objectName objects with
      | Some object =>
          match lookup propertyName object with
          | Some (Some property) => property
          | _ => defaultValue
          end
      | None => defaultValue
      end
  | None => defaultValue
  end.

(** [logExceptions()]: the decorator replaces the method by one that
    calls it inside a [try] whose [catch] rethrows. *)
Definition logExceptions {A B : Type} (descriptor_value : A -> M B) : A -> M B :=
  fun arguments => try_catch (descriptor_value arguments) (fun e => throw e).

Section Methods.
Context {number : Type} {NUM : JSNumber number} {BROWSER : Browser}.

(** [VisualSettings.parse] and [VisualSettings.getDefault] come with the
    settings class, outside the sources. *)
Variable VisualSettings_parse : option (DataView number) -> VisualSettings.
Variable VisualSettings_getDefault : VisualSettings.

(** [legendWrap.node().getBoundingClientRect().height]: the height the
    browser lays the legend out at, in the document as it is then. *)
Variable legendWrap_height : Visual -> number.

(** [renderLegend(categoryColorData)] *)
Definition renderLegend (categoryColorData : list CategoryColor) : M unit :=
  fun this =>
    let legendWrap :=
      Elem "div" [("class", "legend-wrap")] (map legend_element categoryColorData) in
    match select_update (has_class "pipeline-wrap") (append_child legendWrap) this with
    | None => (Throw (cannot_read "null" "getBoundingClientRect"), this)
    | Some this =>
        let legendWrapHeight := legendWrap_height this in
        let calcHeight := num_add (num_lit 260) legendWrapHeight in
        let style := "height:calc(100% - " +:+ num_toString calcHeight +:+ "px);" in
        match select_update (has_class "companies-wrap") (attr "style" style) this with
        | Some this => (Normal tt, this)
        | None => (Normal tt, this)
        end
    end.

(** [handleScrollEvent()]; the listener it registers on the companies
    area is [scroll_listener] below. *)
Definition handleScrollEvent : M unit :=
  fun this =>
    match select_update (has_class "pipeline-bar") (attr "style" "margin-left:0px;") this with
    | Some this => (Normal tt, this)
    | None => (Normal tt, this)
    end.

(** The listener of lines 284-289, run for a scroll event whose target
    reports [scrollLeft]; its [pipelineBar] is the bar selected when the
    listener was registered, the first one of the document until the
    next [update]. *)
Definition scroll_listener (scrollLeft : number) : M unit :=
  fun this =>
    let style := "margin-left:" +:+ num_toString (num_neg scrollLeft) +:+ "px;" in
    match select_update (has_class "pipeline-bar") (attr "style" style) this with
    | Some this => (Normal tt, this)
    | None => (Normal tt, this)
    end.

(** [options && options.dataViews && options.dataViews[0]] *)
Definition first_dataView_guarded (options : VisualUpdateOptions number)
  : option (DataView number) :=
  match dataViews options with
  | Some dvs => nth_error dvs 0
  | None => None
  end.

(** [options.dataViews[0]] *)
Definition first_dataView (options : VisualUpdateOptions number)
  : completion (option (DataView number)) :=
  match dataViews options with
  | Some dvs => Normal (nth_error dvs 0)
  | None => Throw (cannot_read "undefined" "0")
  end.

(** Lines 114-119: the [style] of the content root. *)
Definition target_style (s : VisualSettings) (options : VisualUpdateOptions number) : string :=
  if negb (layout (pipeline s) =? "")%string then
    "height:" +:+ num_toString (num_sub (height (viewport options)) (num_lit 110))
      +:+ "px;width:" +:+ num_toString (width (viewport options)) +:+ "px"
  else
    "height:" +:+ num_toString (height (viewport options))
      +:+ "px;width:" +:+ num_toString (width (viewport options)) +:+ "px".

(** Lines 123-124: the records handed to the rendering steps. *)
Definition pipelineData_of (options : VisualUpdateOptions number)
  : completion (list Pipeline) :=
  match first_dataView options with
  | Throw e => Throw e
  | Normal dataView =>
      match CONVERTER dataView with
      | Throw e => Throw e
      | Normal pipelineData => Normal (slice0 250 pipelineData)
      end
  end.

(** The body of [update(options)], before the decorator. *)
Definition update_body (options : VisualUpdateOptions number) : M unit :=
  (modify (notify RenderingStarted) ;;
   let s := VisualSettings_parse (first_dataView_guarded options) in
   modify (set_settings s) ;;
   modify (fun this => set_target (remove_all_elements (target this)) this) ;;
   modify (fun this => set_target (attr "class" "pipeline-container" (target this)) this) ;;
   modify (fun this => set_target (attr "style" (target_style s options) (target this)) this) ;;
   pipelineData <- lift (pipelineData_of options) ;;
   let phaseData := split "," (phases (pipeline s)) in
   let categoryData := categoryData_of s pipelineData in
   let categoryColorData := categoryColorData_of categoryData in
   renderLayout ;;
   renderPipelineReport phaseData pipelineData categoryColorData ;;
   renderLegend categoryColorData ;;
   handleScrollEvent ;;
   modify (notify RenderingFinished))%visual.

(** [@logExceptions() public update(options)] *)
Definition update : VisualUpdateOptions number -> M unit := logExceptions update_body.

(** [enumerateObjectInstances(options)], over the settings class's
    enumeration. *)
Definition enumerateObjectInstances {O R : Type}
  (VisualSettings_enumerateObjectInstances : VisualSettings -> O -> R)
  (options : O) (this : Visual) : R :=
  VisualSettings_enumerateObjectInstances
    (match settings this with
     | Some s => s
     | None => VisualSettings_getDefault
     end) options.

End Methods.

(* ================================================================= *)
(** ** Notions the statements are written with *)

(** The four roles [CONVERTER] knows, in the order its [else if] chain
    tests them. *)
Inductive role : Type :=
| RTitle
| RPhase
| RCategory
| RName.

Definition index_of_role (r : role) (ix : located) : index :=
  match r with
  | RTitle => _titleIndex ix
  | RPhase => _phaseIndex ix
  | RCategory => _categoryIndex ix
  | RName => _nameIndex ix
  end.

Definition field_of_role (r : role) (dp : Pipeline) : jsstring :=
  match r with
  | RTitle => Title dp
  | RPhase => Phase dp
  | RCategory => Category dp
  | RName => Name dp
  end.

(** The role whose branch of the chain a column takes: the first of the
    four that its role tags contain. *)
Definition primary_role (c : DataViewMetadataColumn) : option role :=
  if hasOwnProperty (roles c) "Title" then Some RTitle
  else if hasOwnProperty (roles c) "Phase" then Some RPhase
  else if hasOwnProperty (roles c) "Category" then Some RCategory
  else if hasOwnProperty (roles c) "Name" then Some RName
  else None.

Definition role_eqb (a b : role) : bool :=
  match a, b with
  | RTitle, RTitle | RPhase, RPhase | RCategory, RCategory | RName, RName => true
  | _, _ => false
  end.

Definition takes (r : role) (c : DataViewMetadataColumn) : bool :=
  match primary_role c with
  | Some r' => role_eqb r r'
  | None => false
  end.

(** The index of the first column whose role tags contain [name], as the
    specification words it; [-1] when there is none. *)
Fixpoint first_with_role (name : string) (cols : list DataViewMetadataColumn) (ti : Z) : Z :=
  match cols with
  | [] => -1
  | c :: cs => if hasOwnProperty (roles c) name then ti else first_with_role name cs (ti + 1)
  end.

(** The value a role's index variable starts with. *)
Definition initial_index (r : role) : index := index_of_role r located_init.

(** [ix] is the place of the last column that takes role [r], or the
    initial value when no column takes it. *)
Definition last_taking (r : role) (cols : list DataViewMetadataColumn) (ix : index) : Prop :=
  (exists (i : nat) (c : DataViewMetadataColumn),
      ix = INum (Z.of_nat i) /\ nth_error cols i = Some c /\ takes r c = true /\
      forall (j : nat) (c' : DataViewMetadataColumn),
        (i < j)%nat -> nth_error cols j = Some c' -> takes r c' = false)
  \/ (ix = initial_index r /\ forall c, In c cols -> takes r c = false).

(** What the filter [self.indexOf(v) === i] keeps: the first occurrence
    of each value, in the order of the array. *)
Fixpoint first_occurrences (seen l : list jsstring) : list jsstring :=
  match l with
  | [] => []
  | v :: vs =>
      if existsb (jsstring_eqb v) seen then first_occurrences seen vs
      else v :: first_occurrences (seen ++ [v]) vs
  end.

(** The order of the default comparator, as a relation. *)
Definition sort_le (a b : jsstring) : Prop := sort_leb a b = true.

Section UpdateNotions.
Context {number : Type} {NUM : JSNumber number} {BROWSER : Browser}.
Variable VisualSettings_parse : option (DataView number) -> VisualSettings.
Variable legendWrap_height : Visual -> number.

(** The settings [update] works with. *)
Definition settings_of (options : VisualUpdateOptions number) : VisualSettings :=
  VisualSettings_parse (first_dataView_guarded options).

(** The visual after lines 108-119 of [update]: the host is told that
    rendering started, the settings are parsed, the content root is
    emptied and given its class and size. *)
Definition entered (options : VisualUpdateOptions number) (this : Visual) : Visual :=
  let s := settings_of options in
  let this := set_settings s (notify RenderingStarted this) in
  let this := set_target (remove_all_elements (target this)) this in
  let this := set_target (attr "class" "pipeline-container" (target this)) this in
  set_target (attr "style" (target_style s options) (target this)) this.

(** Lines 146-154 of [update], for the three values computed before
    them: the rendering steps and the closing notification. *)
Definition rendering_steps (phaseData : list string) (pipelineData : list Pipeline)
  (categoryColorData : list CategoryColor) : M unit :=
  (renderLayout ;;
   renderPipelineReport phaseData pipelineData categoryColorData ;;
   renderLegend legendWrap_height categoryColorData ;;
   handleScrollEvent ;;
   modify (notify RenderingFinished))%visual.

End UpdateNotions.

(** The three classes the visual selects by from the document root. *)
Definition selected_classes : list string :=
  ["pipeline-wrap"; "companies-wrap"; "pipeline-bar"].

(** No element of the subtree carries one of them. *)
Definition unselected (n : node) : Prop :=
  forall cls, In cls selected_classes -> find_first (has_class cls) n = None.

(** What holds of the visual between calls: the content root is an
    element, and the header band holds nothing the selectors could
    mistake for the pipeline (it precedes the content root in the
    document). *)
Definition well_formed (this : Visual) : Prop :=
  is_element (target this) = true /\
  (forall k, In k (match target this with Elem _ _ kids => kids | _ => [] end) ->
             is_element k = true) /\
  unselected (header this).

(** The children of an element that shows the text [s]: one text node
    with that text, and none for the empty text. *)
Definition shows (s : string) : list node :=
  match s with
  | EmptyString => []
  | String _ _ => [Text s]
  end.

(** The same for a field of a record: nothing is shown for [null]. *)
Definition shows_field (v : jsstring) : list node :=
  match v with
  | Some s => shows s
  | None => []
  end.

(** The block of one record in the companies area: the title and the
    name, each in a paragraph of the given style. *)
Definition company_block (style : string) (d : Pipeline) : node :=
  Elem "div" [("class", "company")]
    [ Elem "p" [("class", "company-name"); ("style", style)] (shows_field (Title d));
      Elem "p" [("class", "product-name"); ("style", style)] (shows_field (Name d)) ].

(** One column of the phase bar: the label, an arrow, a rope and a rope
    circle. *)
Definition phase_column (d : string) : node :=
  Elem "div" [("class", "phase")]
    [ Elem "p" [("class", "phase-text")] (shows d);
      Elem "div" [("class", "phase-arrow")] [];
      Elem "div" [("class", "phase-rope")] [];
      Elem "div" [("class", "phase-rope-circle")] [] ].

(** One entry of the legend: the category in its colour. *)
Definition legend_entry (cd : CategoryColor) : node :=
  Elem "div" [("class", "legend")]
    [ Elem "p" [("style", "color:" +:+ show_undefined (color cd) +:+ ";")]
        (shows_field (category cd)) ].

(** The first entry of the mapping for a category. *)
Definition color_found (categoryColorData : list CategoryColor) (c : jsstring)
  : option CategoryColor :=
  find (fun cd => jsstring_eqb (category cd) c) categoryColorData.

(** Every record shown under one of the phases has its category in the
    mapping. *)
Definition categories_mapped (phaseData : list string) (pipelineData : list Pipeline)
  (categoryColorData : list CategoryColor) : Prop :=
  forall (d : Pipeline) (pd : string),
    In d pipelineData -> In pd phaseData -> Phase d = Some pd ->
    exists cd, In cd categoryColorData /\ category cd = Category d.

(** The tree [update] leaves under the content root, piece by piece;
    the bar and the companies area take the attributes set on them
    after their class. *)
Definition bar_tree (more_attrs : list (string * string)) (phaseData : list string) : node :=
  Elem "div" (("class", "pipeline-bar") :: more_attrs) (map phase_column phaseData).

Definition companies_tree (more_attrs : list (string * string)) (companies : list (list node))
  : node :=
  Elem "div" (("class", "companies-wrap") :: more_attrs)
    (map (fun kids => Elem "div" [("class", "phase-companies")] kids) companies).

Definition legend_tree (categoryColorData : list CategoryColor) : node :=
  Elem "div" [("class", "legend-wrap")] (map legend_entry categoryColorData).

Definition wrap_tree (bar companiesWrap : node) (legend : list node) : node :=
  Elem "div" [("class", "pipeline-wrap")] (bar :: companiesWrap :: legend).

Definition content_tree (title : string) (pipelineWrap : node) : node :=
  Elem "div" [("class", "main-content")]
    [ Elem "div" [("class", "header")] [Elem "p" [] (shows title)]; pipelineWrap ].

(** The style of a record's two paragraphs, when its category is in the
    mapping. *)
Definition shown_style (categoryColorData : list CategoryColor) (d : Pipeline) : string :=
  match color_style categoryColorData d with
  | Normal s => s
  | Throw _ => ""
  end.

(** The groups of the companies area: per phase label, the blocks of the
    records of that phase. *)
Definition company_groups (phaseData : list string) (pipelineData : list Pipeline)
  (categoryColorData : list CategoryColor) : list (list node) :=
  map (fun pd =>
         map (fun d => company_block (shown_style categoryColorData d) d)
           (filter (fun d => jsstring_eqb (Phase d) (Some pd)) pipelineData))
    phaseData.

(** The effect of [renderLayout] under settings [s]: the band named by
    the layout gets its class and the image markup, or nothing
    changes. *)
Definition with_band {BROWSER : Browser} (s : VisualSettings) (this : Visual) : Visual :=
  if (toLowerCase (layout (pipeline s)) =? "header")%string then
    set_header (html (band_html s) (attr "class" "visual-header" (header this))) this
  else if (toLowerCase (layout (pipeline s)) =? "footer")%string then
    set_footer (html (band_html s) (attr "class" "visual-footer" (footer this))) this
  else this.

(** The band markup of settings [s] is plain: when it goes into the
    header, the browser parses it into nodes none of which carries one
    of the three selected classes.  (The markup of an image URL without
    markup of its own is one [img] element, which is plain; a footer
    band follows the content root in the document and is never reached
    by the selections.) *)
Definition plain_band {BROWSER : Browser} (s : VisualSettings) : Prop :=
  toLowerCase (layout (pipeline s)) = "header" ->
  forall cls, In cls selected_classes ->
    find_first_among (has_class cls) (html_nodes (band_html s)) = None.



Section RenderedNotions.
Context {number : Type} {NUM : JSNumber number}.

(** The style [renderLegend] gives the companies area for a legend
    measured [legendWrapHeight] high. *)
Definition companies_style (legendWrapHeight : number) : string :=
  "height:calc(100% - " +:+ num_toString (num_add (num_lit 260) legendWrapHeight) +:+ "px);".

(** What a completed [update] leaves under the content root. *)
Definition rendered_content (s : VisualSettings) (phaseData : list string)
  (pipelineData : list Pipeline) (categoryColorData : list CategoryColor)
  (legendWrapHeight : number) : node :=
  content_tree (title (pipeline s))
    (wrap_tree
       (bar_tree [("style", "margin-left:0px;")] phaseData)
       (companies_tree [("style", companies_style legendWrapHeight)]
          (company_groups phaseData pipelineData categoryColorData))
       [legend_tree categoryColorData]).

End RenderedNotions.

(** The attributes of the content root once [update] has set its class
    and its style. *)
Definition target_attrs (style : string) (attrs : list (string * string))
  : list (string * string) :=
  set_attr "style" style (set_attr "class" "pipeline-container" attrs).

(** What the document-wide selections of [renderLegend] and
    [handleScrollEvent] leave alone wherever they land: the settings,
    the notifications sent, and the tag and attributes of the content
    root. *)
Definition framed (s : VisualSettings) (sent : list host_event) (tag : string)
  (attrs : list (string * string)) (this : Visual) : Prop :=
  settings this = Some s /\ notified this = sent /\
  exists kids, target this = Elem tag attrs kids.

Section CallsNotions.
Context {number : Type} {NUM : JSNumber number} {BROWSER : Browser}.
Variable VisualSettings_parse : option (DataView number) -> VisualSettings.
Variable legendWrap_height : Visual -> number.

(** The visual after a sequence of [update] calls by the host, whether
    they returned or threw. *)
Definition after_updates (calls : list (VisualUpdateOptions number)) (this : Visual) : Visual :=
  fold_left (fun this options => snd (update VisualSettings_parse legendWrap_height options this))
    calls this.

End CallsNotions.

(* ================================================================= *)
(** ** Concrete calls *)

(** A concrete call, over integer-valued numbers: the table of the
    specification's first scenario, the phases setting ["Lead,Closed"],
    a header band with an image, and a viewport of 800 by 600; and the
    browser as far as these calls need it. *)
Module Scenario.

Definition column (name tag : string) : DataViewMetadataColumn :=
  {| displayName := name; roles := [tag] |}.

Definition tableView : DataViewTable Z :=
  {| columns := [ column "Company" "Title"; column "Stage" "Phase";
                  column "Segment" "Category"; column "Product" "Name" ];
     rows := [ [PVString "Acme"; PVString "Lead"; PVString "Sales"; PVString "WidgetA"];
               [PVString "Globex"; PVString "Closed"; PVString "Sales"; PVString "WidgetB"] ] |}.

Definition dataView : DataView Z :=
  {| metadata_objects := None; table := Some tableView |}.

Definition options : VisualUpdateOptions Z :=
  {| viewport := {| height := 600; width := 800 |}; dataViews := Some [dataView] |}.

Definition pipelineSettings : PipelineSettings :=
  {| title := "Pipeline"; phases := "Lead,Closed"; categories := None;
     imgURL := Some "logo.png"; layout := "Header" |}.

Definition parse (dataView : option (DataView Z)) : VisualSettings :=
  {| pipeline := pipelineSettings |}.

(** The legend is taken to be laid out 40 pixels high. *)
Definition legend_height (this : Visual) : Z := 40.

(** The markup [renderLayout] writes for the scenario's image URL. *)
Definition image_markup : string := "<img src=" +:+ quote +:+ "logo.png" +:+ quote +:+ "/>".


Definition closing_markup : string :=
  "<img src=" +:+ quote +:+ "logo.png" +:+ quote +:+ "/><div class=" +:+ quote
    +:+ "pipeline-wrap" +:+ quote +:+ "></div><img src=" +:+ quote +:+ "logo.png" +:+ quote
    +:+ "/>".

(** The image element of the scenario's URL. *)
Definition image : node := Elem "img" [("src", "logo.png")] [].

(** The browser's parser on these two markups, the only ones the calls
    here assign: the first is an image element; the second is an image
    element, a [div] of class [pipeline-wrap] and a second image
    element.  It is left empty on any other markup. *)
Definition parse_markup (markup : string) : list node :=
  if (markup =? image_markup)%string then [image]
  else if (markup =? closing_markup)%string then
    [image; Elem "div" [("class", "pipeline-wrap")] []; image]
  else [].

Definition browser : Browser := {| parse_html := parse_markup |}.

(** The visual after the scenario's call: its header holds the image. *)
Definition rendered : Visual :=
  snd (update (BROWSER := browser) parse legend_height options constructor).

End Scenario.

(** Two more calls: a categories setting that is not in sorted order,
    and a table of 251 rows whose last row alone has category ["Z"]. *)
Module Categories.

Definition configured : VisualSettings :=
  {| pipeline := {| title := "Pipeline"; phases := "Lead"; categories := Some "b,a";
                    imgURL := None; layout := "" |} |}.

Definition unset : VisualSettings :=
  {| pipeline := {| title := "Pipeline"; phases := "Lead"; categories := None;
                    imgURL := None; layout := "" |} |}.

Definition row (category : string) : list (PrimitiveValue Z) :=
  [PVString "Acme"; PVString "Lead"; PVString category; PVString "WidgetA"].

Definition dataView : DataView Z :=
  {| metadata_objects := None;
     table := Some {| columns := columns Scenario.tableView;
                      rows := repeat (row "A") 250 ++ [row "Z"] |} |}.

Definition options : VisualUpdateOptions Z :=
  {| viewport := {| height := 600; width := 800 |}; dataViews := Some [dataView] |}.

End Categories.

(** Further inputs: options without a table or without a data view,
    settings with other layouts, categories and image URLs, an empty
    table, and a column with two tags. *)
Module Inputs.

Definition no_table : VisualUpdateOptions Z :=
  {| viewport := {| height := 600; width := 800 |};
     dataViews := Some [ {| metadata_objects := None; table := None |} ] |}.

Definition no_dataView : VisualUpdateOptions Z :=
  {| viewport := {| height := 600; width := 800 |}; dataViews := Some [] |}.

Definition layout_empty (dataView : option (DataView Z)) : VisualSettings :=
  Categories.unset.

(** The scenario's columns over no rows. *)
Definition empty_table : VisualUpdateOptions Z :=
  {| viewport := {| height := 600; width := 800 |};
     dataViews :=
       Some [ {| metadata_objects := None;
                 table := Some {| columns := columns Scenario.tableView; rows := [] |} |} ] |}.

(** A categories setting that leaves out the scenario's category. *)
Definition restricted (dataView : option (DataView Z)) : VisualSettings :=
  {| pipeline := {| title := "Pipeline"; phases := "Lead,Closed";
                    categories := Some "Marketing"; imgURL := None; layout := "" |} |}.




(** One column tagged both Title and Phase. *)
Definition shadowing : list DataViewMetadataColumn :=
  [ {| displayName := "Company"; roles := ["Title"; "Phase"] |} ].

End Inputs.

(* ================================================================= *)
(** * Theorems *)

(* ================================================================= *)
(** ** [CONVERTER]: the located columns *)

(** One turn of the loop moves the index of the role the column takes
    and leaves the other three alone. *)
Lemma locate_step_index (r : role) (ix : located) (ti : Z) (c : DataViewMetadataColumn) :
  index_of_role r (locate_step ix ti c) =
  if takes r c then INum ti else index_of_role r ix.
Proof.
  unfold locate_step, takes, primary_role.
  destruct (hasOwnProperty (roles c) "Title");
    [destruct r; reflexivity|].
  destruct (hasOwnProperty (roles c) "Phase");
    [destruct r; reflexivity|].
  destruct (hasOwnProperty (roles c) "Category");
    [destruct r; reflexivity|].
  destruct (hasOwnProperty (roles c) "Name");
    destruct r; reflexivity.
Qed.

(** The loop from counter [ti] on: either some column of the rest takes
    the role, and the last such one wins, or the index is as it was. *)
Lemma locate_loop_index (r : role) (cols : list DataViewMetadataColumn) :
  forall (ti : Z) (ix : located),
    (exists (i : nat) (c : DataViewMetadataColumn),
        index_of_role r (locate_loop cols ti ix) = INum (ti + Z.of_nat i) /\
        nth_error cols i = Some c /\ takes r c = true /\
        forall (j : nat) (c' : DataViewMetadataColumn),
          (i < j)%nat -> nth_error cols j = Some c' -> takes r c' = false)
    \/ (index_of_role r (locate_loop cols ti ix) = index_of_role r ix /\
        forall c, In c cols -> takes r c = false).
Proof.
  induction cols as [|c cs IH]; intros ti ix; simpl.
  - right. split; [reflexivity | intros c []].
  - destruct (IH (ti + 1) (locate_step ix ti c)) as [(i & c0 & Hix & Hnth & Htakes & Hlast) | [Hix Hnone]].
    + left. exists (S i), c0. repeat split; auto.
      * rewrite Hix. f_equal. lia.
      * intros j c' Hlt Hj. destruct j as [|j]; [lia|].
        apply (Hlast j c'); [lia | exact Hj].
    + rewrite locate_step_index in Hix.
      destruct (takes r c) eqn:Hc.
      * left. exists 0%nat, c. repeat split; auto.
        -- rewrite Hix. f_equal. lia.
        -- intros j c' Hlt Hj. destruct j as [|j]; [lia|].
           simpl in Hj. apply Hnone. eapply nth_error_In; eauto.
      * right. split; [exact Hix|].
        intros c' [<-|Hin]; auto.
Qed.

Lemma locate_last_taking (r : role) (cols : list DataViewMetadataColumn) :
  last_taking r cols (index_of_role r (locate cols)).
Proof.
  unfold locate, last_taking, initial_index.
  destruct (locate_loop_index r cols 0 located_init)
    as [(i & c & Hix & Hnth & Htakes & Hlast) | [Hix Hnone]].
  - left. exists i, c. repeat split; auto.
  - right. split; assumption.
Qed.

Section ConverterFacts.
Context {number : Type} {NUM : JSNumber number}.

(** The loop over the rows pushes one record per row: it is a [map]. *)
Lemma convert_rows_map (ix : located) (_rows : list (list (PrimitiveValue number))) :
  convert_rows ix _rows = map (make_dp ix) _rows.
Proof.
  unfold convert_rows.
  enough (H : forall acc, fold_left (fun resultData row => resultData ++ [make_dp ix row]) _rows acc
                          = acc ++ map (make_dp ix) _rows) by apply (H []).
  induction _rows as [|row rest IH]; intros acc; simpl.
  - now rewrite app_nil_r.
  - rewrite IH, <- app_assoc. reflexivity.
Qed.

(** A cell read at an initial index value is [undefined], hence [null]. *)
Lemma cell_text_initial (r : role) (row : list (PrimitiveValue number)) :
  cell_text row (initial_index r) = None.
Proof. destruct r; reflexivity. Qed.

Lemma make_dp_field (r : role) (ix : located) (row : list (PrimitiveValue number)) :
  field_of_role r (make_dp ix row) = cell_text row (index_of_role r ix).
Proof. destruct r; reflexivity. Qed.

End ConverterFacts.

Section ConverterClaims.
Context {number : Type} {NUM : JSNumber number}.


(** A role that no column takes is [null] in every record. *)
Lemma untaken_field_null (cols : list DataViewMetadataColumn) (r : role)
  (_rows : list (list (PrimitiveValue number))) (dp : Pipeline) :
  (forall c, In c cols -> takes r c = false) ->
  In dp (convert_rows (locate cols) _rows) -> field_of_role r dp = None.
Proof.
  intros Hnone Hin.
  rewrite convert_rows_map in Hin. apply in_map_iff in Hin.
  destruct Hin as (row & <- & _).
  rewrite make_dp_field.
  destruct (locate_last_taking r cols) as [(i & c & _ & Hnth & Htakes & _) | [-> _]].
  - apply nth_error_In in Hnth. rewrite (Hnone c Hnth) in Htakes. discriminate.
  - apply cell_text_initial.
Qed.

(** C4, as amended.  For each role the located index is the place of the
    last column that takes the role in the [else if] chain (a column
    takes the first of Title, Phase, Category, Name among its tags); a
    role no column takes keeps its initial index, [-1] for Title, Phase
    and Category, and every record's field for it is [null]. *)
Theorem locate_last_match_wins (cols : list DataViewMetadataColumn) (r : role) :
  last_taking r cols (index_of_role r (locate cols)) /\
  (r <> RName -> initial_index r = INum (-1)) /\
  ((forall c, In c cols -> takes r c = false) ->
   forall (_rows : list (list (PrimitiveValue number))) (dp : Pipeline),
     In dp (convert_rows (locate cols) _rows) -> field_of_role r dp = None).
Proof.
  split; [apply locate_last_taking|]. split.
  - destruct r; try reflexivity. congruence.
  - intros Hnone _rows dp. now apply untaken_field_null.
Qed.

End ConverterClaims.

(** C4, refuted as stated: with two columns tagged Title the first one
    is at place 0, yet the index [CONVERTER] locates is 1. *)
Lemma first_match_does_not_win :
  let cols := [ {| displayName := "Company"; roles := ["Title"] |};
                {| displayName := "Alias"; roles := ["Title"] |} ] in
  first_with_role "Title" cols 0 = 0 /\
  _titleIndex (locate cols) = INum 1 /\
  _titleIndex (locate cols) <> INum (first_with_role "Title" cols 0).
Proof. cbv zeta. repeat split. discriminate. Qed.

(* ================================================================= *)
(** ** The category list: [indexOf], the distinct filter and [sort] *)

Lemma jsstring_eqb_eq (a b : jsstring) : jsstring_eqb a b = true <-> a = b.
Proof.
  destruct a as [x|], b as [y|]; simpl; try (split; congruence).
  rewrite String.eqb_eq. split; congruence.
Qed.

Lemma jsstring_eqb_refl (a : jsstring) : jsstring_eqb a a = true.
Proof. now apply jsstring_eqb_eq. Qed.

Lemma jsstring_eqb_neq (a b : jsstring) : jsstring_eqb a b = false <-> a <> b.
Proof.
  rewrite <- jsstring_eqb_eq. destruct (jsstring_eqb a b); split; congruence.
Qed.

(** [indexOf] answers [-1] exactly for what the array does not hold, and
    a place inside the array otherwise. *)
Lemma indexOf_range (self : list jsstring) (v : jsstring) :
  (indexOf self v = -1 /\ ~ In v self) \/
  (0 <= indexOf self v < Z.of_nat (List.length self) /\ In v self).
Proof.
  induction self as [|x xs IH]; simpl.
  - left. split; [reflexivity | intros []].
  - destruct (jsstring_eqb x v) eqn:E.
    + apply jsstring_eqb_eq in E. right. split; [lia | now left].
    + apply jsstring_eqb_neq in E.
      destruct IH as [[-> Hnot] | [Hr Hin]].
      * left. simpl. split; [reflexivity | intros [?|?]; contradiction].
      * right. destruct (indexOf xs v <? 0) eqn:L; [lia|]. split; [lia | now right].
Qed.

Lemma indexOf_app_in (pre l : list jsstring) (v : jsstring) :
  In v pre -> indexOf (pre ++ l) v = indexOf pre v.
Proof.
  induction pre as [|x xs IH]; simpl; [intros []|].
  intros Hin. destruct (jsstring_eqb x v) eqn:E; [reflexivity|].
  apply jsstring_eqb_neq in E. destruct Hin as [?|Hin]; [contradiction|].
  now rewrite IH.
Qed.

Lemma indexOf_app_head (pre l : list jsstring) (v : jsstring) :
  ~ In v pre -> indexOf (pre ++ v :: l) v = Z.of_nat (List.length pre).
Proof.
  induction pre as [|x xs IH]; simpl; intros Hnot.
  - now rewrite jsstring_eqb_refl.
  - destruct (jsstring_eqb x v) eqn:E.
    + apply jsstring_eqb_eq in E. tauto.
    + rewrite IH by tauto.
      destruct (Z.of_nat (List.length xs) <? 0) eqn:L; lia.
Qed.

Lemma existsb_jsstring_In (v : jsstring) (seen : list jsstring) :
  existsb (jsstring_eqb v) seen = true <-> In v seen.
Proof.
  rewrite existsb_exists. split.
  - intros (x & Hin & E). apply jsstring_eqb_eq in E. now subst.
  - intros Hin. exists v. split; [exact Hin | apply jsstring_eqb_refl].
Qed.

(** Only the values of the seen list matter. *)
Lemma first_occurrences_same (a b : list jsstring) :
  (forall x, In x a <-> In x b) ->
  forall l, first_occurrences a l = first_occurrences b l.
Proof.
  intros Hab l. revert a b Hab.
  induction l as [|x xs IH]; intros a b Hab; simpl; [reflexivity|].
  assert (Hx : existsb (jsstring_eqb x) a = existsb (jsstring_eqb x) b).
  { apply eq_true_iff_eq. rewrite !existsb_jsstring_In. apply Hab. }
  rewrite Hx. destruct (existsb (jsstring_eqb x) b).
  - now apply IH.
  - f_equal. apply IH. intros y. rewrite !in_app_iff, Hab. tauto.
Qed.

Lemma distinct_filter_from (pre l : list jsstring) :
  filter_from (fun v i => indexOf (pre ++ l) v =? i) (Z.of_nat (List.length pre)) l
  = first_occurrences pre l.
Proof.
  revert pre. induction l as [|v vs IH]; intros pre; simpl; [reflexivity|].
  assert (Hnext : Z.of_nat (List.length pre) + 1 = Z.of_nat (List.length (pre ++ [v])))
    by (rewrite List.length_app; simpl; lia).
  assert (Hassoc : pre ++ v :: vs = (pre ++ [v]) ++ vs)
    by (rewrite <- app_assoc; reflexivity).
  destruct (existsb (jsstring_eqb v) pre) eqn:E.
  - apply existsb_jsstring_In in E.
    rewrite indexOf_app_in by exact E.
    destruct (indexOf_range pre v) as [[_ Hnot] | [Hr _]]; [contradiction|].
    replace (indexOf pre v =? Z.of_nat (List.length pre)) with false
      by (symmetry; apply Z.eqb_neq; lia).
    rewrite Hnext, Hassoc, IH.
    apply first_occurrences_same.
    intros x. rewrite in_app_iff. simpl. split; [|tauto].
    intros [?|[<-|[]]]; assumption.
  - assert (Hnot : ~ In v pre) by (rewrite <- existsb_jsstring_In; congruence).
    rewrite indexOf_app_head by exact Hnot. rewrite Z.eqb_refl.
    f_equal. rewrite Hnext, Hassoc. apply IH.
Qed.

Lemma first_occurrences_In (seen l : list jsstring) (v : jsstring) :
  In v (first_occurrences seen l) <-> In v l /\ ~ In v seen.
Proof.
  revert seen. induction l as [|x xs IH]; intros seen; simpl; [tauto|].
  destruct (existsb (jsstring_eqb x) seen) eqn:E.
  - apply existsb_jsstring_In in E. rewrite IH.
    split; [tauto|]. intros [[<-|Hin] Hnot]; tauto.
  - assert (Hx : ~ In x seen) by (rewrite <- existsb_jsstring_In; congruence).
    simpl. rewrite IH, in_app_iff. simpl.
    destruct (jsstring_eqb x v) eqn:Exv.
    + apply jsstring_eqb_eq in Exv. subst. tauto.
    + apply jsstring_eqb_neq in Exv. tauto.
Qed.

Lemma first_occurrences_NoDup (seen l : list jsstring) :
  NoDup (first_occurrences seen l).
Proof.
  revert seen. induction l as [|x xs IH]; intros seen; simpl; [constructor|].
  destruct (existsb (jsstring_eqb x) seen); [apply IH|].
  constructor; [|apply IH].
  rewrite first_occurrences_In, in_app_iff. simpl. tauto.
Qed.

(** The insertion sort permutes its input and orders it by the default
    comparator. *)
Lemma sort_insert_Permutation (v : jsstring) (l : list jsstring) :
  Permutation (sort_insert v l) (v :: l).
Proof.
  induction l as [|w ws IH]; simpl; [reflexivity|].
  destruct (sort_leb v w); [reflexivity|].
  rewrite IH. apply perm_swap.
Qed.

Lemma sort_Permutation (l : list jsstring) : Permutation (sort l) l.
Proof.
  induction l as [|v vs IH]; simpl; [reflexivity|].
  rewrite sort_insert_Permutation. now constructor.
Qed.

Lemma sort_leb_total (a b : jsstring) : sort_leb a b = false -> sort_leb b a = true.
Proof.
  unfold sort_leb. intros H.
  destruct (String.leb_total (sort_key a) (sort_key b)); congruence.
Qed.

Lemma sort_insert_Sorted (v : jsstring) (l : list jsstring) :
  Sorted sort_le l -> Sorted sort_le (sort_insert v l).
Proof.
  induction l as [|w ws IH]; simpl; intros Hs.
  - repeat constructor.
  - destruct (sort_leb v w) eqn:E.
    + constructor; [exact Hs | constructor; exact E].
    + inversion Hs as [|? ? Hws Hhd]; subst.
      constructor; [now apply IH|].
      destruct ws as [|u us]; simpl.
      * constructor. now apply sort_leb_total.
      * destruct (sort_leb v u).
        -- constructor. now apply sort_leb_total.
        -- inversion Hhd; subst. now constructor.
Qed.

Lemma sort_Sorted (l : list jsstring) : Sorted sort_le (sort l).
Proof.
  induction l as [|v vs IH]; simpl; [constructor | now apply sort_insert_Sorted].
Qed.

(** The sort is stable: values with one and the same string form keep
    the order they had. *)
Lemma sort_leb_key (a b : jsstring) : sort_key a = sort_key b -> sort_leb a b = true.
Proof.
  unfold sort_leb. intros ->.
  destruct (String.leb_total (sort_key b) (sort_key b)); assumption.
Qed.

Lemma sort_insert_stable (k : string) (v : jsstring) (l : list jsstring) :
  filter (fun x => (sort_key x =? k)%string) (sort_insert v l)
  = filter (fun x => (sort_key x =? k)%string) (v :: l).
Proof.
  induction l as [|w ws IH]; [reflexivity|].
  simpl sort_insert. destruct (sort_leb v w) eqn:E; [reflexivity|].
  change (filter ?f (w :: ?t)) with (if f w then w :: filter f t else filter f t).
  rewrite IH. simpl.
  destruct (String.eqb_spec (sort_key v) k) as [Hv|Hv];
    destruct (String.eqb_spec (sort_key w) k) as [Hw|Hw]; try reflexivity.
  rewrite sort_leb_key in E by congruence. discriminate.
Qed.

Lemma sort_stable (k : string) (l : list jsstring) :
  filter (fun x => (sort_key x =? k)%string) (sort l)
  = filter (fun x => (sort_key x =? k)%string) l.
Proof.
  induction l as [|v vs IH]; [reflexivity|].
  simpl sort. rewrite sort_insert_stable. simpl. now rewrite IH.
Qed.

(** [map] with the index keeps the elements and numbers them from the
    start index. *)
Lemma map_from_nth {A B : Type} (f : A -> nat -> B) (l : list A) :
  forall (start i : nat),
    nth_error (map_from f start l) i =
    match nth_error l i with
    | Some d => Some (f d (start + i)%nat)
    | None => None
    end.
Proof.
  induction l as [|d ds IH]; intros start i; simpl.
  - now destruct i.
  - destruct i as [|i]; simpl.
    + now rewrite Nat.add_0_r.
    + rewrite IH. now rewrite Nat.add_succ_r.
Qed.

Lemma map_from_map {A B C : Type} (g : B -> C) (f : A -> nat -> B) (l : list A) :
  forall start, (forall d i, g (f d i) = g (f d 0%nat)) ->
    map g (map_from f start l) = map (fun d => g (f d 0%nat)) l.
Proof.
  induction l as [|d ds IH]; intros start Hg; simpl; [reflexivity|].
  now rewrite Hg, IH.
Qed.

Lemma categoryColorData_categories (categoryData : list jsstring) :
  map category (categoryColorData_of categoryData) = categoryData.
Proof.
  unfold categoryColorData_of.
  rewrite map_from_map by reflexivity. simpl. apply map_id.
Qed.

(* ================================================================= *)
(** ** The exception wrapper *)

Lemma try_catch_rethrow {A : Type} (body : M A) (this : Visual) :
  try_catch body (fun e => throw e) this = body this.
Proof.
  unfold try_catch, throw. destruct (body this) as [[a|e] this']; reflexivity.
Qed.

(** C8.  The wrapper is transparent: whatever the wrapped method does on
    a visual, returning a result or throwing an error, the wrapper does
    the same with the same result or the same error and leaves the
    visual in the same state; no error is swallowed. *)
Theorem logExceptions_transparent {A B : Type} (descriptor_value : A -> M B)
  (arguments : A) (this : Visual) :
  logExceptions descriptor_value arguments this = descriptor_value arguments this /\
  (forall (e : exn) (this' : Visual),
      descriptor_value arguments this = (Throw e, this') ->
      logExceptions descriptor_value arguments this = (Throw e, this')) /\
  (forall (b : B) (this' : Visual),
      descriptor_value arguments this = (Normal b, this') ->
      logExceptions descriptor_value arguments this = (Normal b, this')).
Proof.
  assert (H : logExceptions descriptor_value arguments this = descriptor_value arguments this)
    by apply try_catch_rethrow.
  split; [exact H|]. split; intros x this' Hrun; now rewrite H.
Qed.

(* ================================================================= *)
(** ** Searching the document *)

(** Induction over a node with the hypothesis for all its children. *)
Lemma node_children_ind (P : node -> Prop)
  (HElem : forall tag attrs kids, Forall P kids -> P (Elem tag attrs kids))
  (HText : forall data, P (Text data)) :
  forall n, P n.
Proof.
  fix IH 1. intros [tag attrs kids | data].
  - apply HElem. induction kids as [|k ks IHks]; constructor; [apply IH | exact IHks].
  - apply HText.
Qed.

Lemma update_first_Elem (p : node -> bool) (f : node -> node) tag attrs kids :
  update_first p f (Elem tag attrs kids) =
  if p (Elem tag attrs kids) then Some (f (Elem tag attrs kids))
  else match update_first_among p f kids with
       | Some kids' => Some (Elem tag attrs kids')
       | None => None
       end.
Proof.
  simpl. destruct (p (Elem tag attrs kids)); [reflexivity|].
  assert (H : forall l,
             (fix among (l : list node) : option (list node) :=
                match l with
                | [] => None
                | k :: ks =>
                    match update_first p f k with
                    | Some k' => Some (k' :: ks)
                    | None => match among ks with
                              | Some ks' => Some (k :: ks')
                              | None => None
                              end
                    end
                end) l = update_first_among p f l).
  { induction l as [|k ks IHl]; simpl; [reflexivity|]. now rewrite IHl. }
  now rewrite H.
Qed.

Lemma find_first_Elem (p : node -> bool) tag attrs kids :
  find_first p (Elem tag attrs kids) =
  if p (Elem tag attrs kids) then Some (Elem tag attrs kids)
  else find_first_among p kids.
Proof.
  simpl. destruct (p (Elem tag attrs kids)); [reflexivity|].
  induction kids as [|k ks IHl]; simpl; [reflexivity|]. now rewrite IHl.
Qed.

(** An operation on a selection changes something exactly when the
    selection is not empty. *)
Lemma update_first_None (p : node -> bool) (f : node -> node) (n : node) :
  update_first p f n = None <-> find_first p n = None.
Proof.
  induction n as [tag attrs kids IH | data] using node_children_ind.
  - rewrite update_first_Elem, find_first_Elem.
    destruct (p (Elem tag attrs kids)); [split; discriminate|].
    induction IH as [|k ks Hk _ IHks]; simpl; [tauto|].
    destruct (update_first p f k) eqn:Uk, (find_first p k) eqn:Fk.
    + split; discriminate.
    + destruct Hk as [_ Hk]. specialize (Hk eq_refl). discriminate.
    + destruct Hk as [Hk _]. specialize (Hk eq_refl). discriminate.
    + destruct (update_first_among p f ks), (find_first_among p ks);
        try tauto; split; try discriminate; intros H;
        destruct IHks as [I1 I2]; try (specialize (I1 H)); try (specialize (I2 H));
        discriminate.
  - simpl. destruct (p (Text data)); split; congruence.
Qed.

(** Attributes: reading back what was set. *)
Lemma get_set_attr (name value : string) (attrs : list (string * string)) :
  get_attr name (set_attr name value attrs) = Some value.
Proof.
  induction attrs as [|[k v] rest IH]; simpl.
  - now rewrite String.eqb_refl.
  - destruct (k =? name)%string eqn:E; simpl; now rewrite E.
Qed.

Lemma get_set_attr_other (name other value : string) (attrs : list (string * string)) :
  name <> other -> get_attr name (set_attr other value attrs) = get_attr name attrs.
Proof.
  intros Hne. induction attrs as [|[k v] rest IH]; simpl.
  - destruct (String.eqb_spec other name); [congruence | reflexivity].
  - destruct (String.eqb_spec k other) as [->|Hk]; simpl.
    + destruct (String.eqb_spec other name); [congruence | reflexivity].
    + destruct (String.eqb_spec k name); [reflexivity | exact IH].
Qed.

(* ================================================================= *)
(** ** [update]: from the entry to the rendering steps *)

Section UpdateFacts.
Context {number : Type} {NUM : JSNumber number} {BROWSER : Browser}.
Variable VisualSettings_parse : option (DataView number) -> VisualSettings.
Variable legendWrap_height : Visual -> number.

Local Abbreviation update := (update VisualSettings_parse legendWrap_height).
Local Abbreviation update_body := (update_body VisualSettings_parse legendWrap_height).
Local Abbreviation settings_of := (settings_of VisualSettings_parse).
Local Abbreviation entered := (entered VisualSettings_parse).
Local Abbreviation rendering_steps := (rendering_steps legendWrap_height).

Lemma update_unwrapped (options : VisualUpdateOptions number) (this : Visual) :
  update options this = update_body options this.
Proof. apply try_catch_rethrow. Qed.

(** [update] either stops where the records are obtained, or goes on to
    the rendering steps with the records, the split phase list and the
    colours derived from both. *)
Lemma update_body_steps (options : VisualUpdateOptions number) (this : Visual) :
  update_body options this =
  match pipelineData_of options with
  | Throw e => (Throw e, entered options this)
  | Normal pipelineData =>
      rendering_steps
        (split "," (phases (pipeline (settings_of options))))
        pipelineData
        (categoryColorData_of (categoryData_of (settings_of options) pipelineData))
        (entered options this)
  end.
Proof.
  unfold update_body, bind, modify, lift. simpl.
  fold (settings_of options).
  destruct (pipelineData_of options) as [pipelineData|e]; reflexivity.
Qed.

Lemma pipelineData_of_table (options : VisualUpdateOptions number)
  (dataView : DataView number) (more : list (DataView number))
  (tableView : DataViewTable number) :
  dataViews options = Some (dataView :: more) ->
  table dataView = Some tableView ->
  pipelineData_of options
  = Normal (firstn 250 (map (make_dp (locate (columns tableView))) (rows tableView))).
Proof.
  intros Hdv Htable. unfold pipelineData_of, first_dataView, CONVERTER, slice0.
  rewrite Hdv. simpl. rewrite Htable, convert_rows_map. reflexivity.
Qed.

(** C3.  Whatever the number of rows, the records [update] hands to its
    rendering steps are at most 250: they are the first 250 records of
    [CONVERTER] when it returns more than 250, and all of them
    otherwise. *)
Theorem update_renders_at_most_250 (options : VisualUpdateOptions number)
  (dataView : option (DataView number)) (resultData : list Pipeline)
  (Hview : first_dataView options = Normal dataView)
  (Hconv : CONVERTER dataView = Normal resultData) :
  exists pipelineData : list Pipeline,
    pipelineData_of options = Normal pipelineData /\
    (forall this,
        update options this =
        rendering_steps
          (split "," (phases (pipeline (settings_of options))))
          pipelineData
          (categoryColorData_of (categoryData_of (settings_of options) pipelineData))
          (entered options this)) /\
    (List.length pipelineData <= 250)%nat /\
    ((250 < List.length resultData)%nat -> pipelineData = firstn 250 resultData) /\
    ((List.length resultData <= 250)%nat -> pipelineData = resultData).
Proof.
  exists (firstn 250 resultData).
  assert (Hpd : pipelineData_of options = Normal (firstn 250 resultData)).
  { unfold pipelineData_of. now rewrite Hview, Hconv. }
  split; [exact Hpd|]. split.
  - intros this. now rewrite update_unwrapped, update_body_steps, Hpd.
  - split; [apply List.firstn_le_length|].
    split; [reflexivity|]. intros Hle. now apply firstn_all2.
Qed.

End UpdateFacts.


(* ================================================================= *)
(** ** The category colours [update] derives *)

Lemma categoryData_configured (s : VisualSettings) (pipelineData : list Pipeline)
  (configured : string) :
  categories (pipeline s) = Some configured -> configured <> "" ->
  categoryData_of s pipelineData = sort (map Some (split "," configured)).
Proof.
  intros Hc Hne. unfold categoryData_of. rewrite Hc. simpl.
  destruct (String.eqb_spec configured ""); [contradiction | reflexivity].
Qed.

Lemma categoryData_observed (s : VisualSettings) (pipelineData : list Pipeline) :
  jsstring_truthy (categories (pipeline s)) = false ->
  categoryData_of s pipelineData = sort (first_occurrences [] (map Category pipelineData)).
Proof.
  intros Hf. unfold categoryData_of.
  pose proof (distinct_filter_from [] (map Category pipelineData)) as Hd.
  simpl in Hd. rewrite Hd.
  destruct (categories (pipeline s)) as [configured|]; [|reflexivity].
  now rewrite Hf.
Qed.

Lemma categoryColorData_palette (categoryData : list jsstring) (i : nat) (cd : CategoryColor) :
  nth_error (categoryColorData_of categoryData) i = Some cd ->
  nth_error categoryData i = Some (category cd) /\ color cd = nth_error colors i.
Proof.
  unfold categoryColorData_of. rewrite map_from_nth.
  destruct (nth_error categoryData i) as [d|]; [|discriminate].
  intros [= <-]. simpl. split; reflexivity.
Qed.

Section CategoryClaims.
Context {number : Type} {NUM : JSNumber number} {BROWSER : Browser}.
Variable VisualSettings_parse : option (DataView number) -> VisualSettings.
Variable legendWrap_height : Visual -> number.

Local Abbreviation update := (update VisualSettings_parse legendWrap_height).
Local Abbreviation settings_of := (settings_of VisualSettings_parse).
Local Abbreviation entered := (entered VisualSettings_parse).
Local Abbreviation rendering_steps := (rendering_steps legendWrap_height).

(** C2, as amended.  On every update the category-colour mapping is
    derived anew from the settings and from the records handed to the
    rendering steps (the first 250 converted records).  Its categories
    are always in the order of the default sort: with a non-empty
    categories setting they are the comma-split configured list, sorted;
    otherwise they are the distinct Category values of those records,
    sorted.  The entry at position i carries the palette's colour at
    position i. *)
Theorem categoryColorData_derivation (options : VisualUpdateOptions number)
  (pipelineData : list Pipeline)
  (Hpd : pipelineData_of options = Normal pipelineData) :
  let s := settings_of options in
  let mapping := categoryColorData_of (categoryData_of s pipelineData) in
  (forall this,
      update options this =
      rendering_steps (split "," (phases (pipeline s))) pipelineData mapping
        (entered options this)) /\
  (exists (dataView : option (DataView number)) (resultData : list Pipeline),
      first_dataView options = Normal dataView /\
      CONVERTER dataView = Normal resultData /\
      pipelineData = firstn 250 resultData) /\
  Sorted sort_le (map category mapping) /\
  (forall configured : string,
      categories (pipeline s) = Some configured -> configured <> "" ->
      map category mapping = sort (map Some (split "," configured)) /\
      Permutation (map category mapping) (map Some (split "," configured))) /\
  (jsstring_truthy (categories (pipeline s)) = false ->
   map category mapping = sort (first_occurrences [] (map Category pipelineData)) /\
   NoDup (map category mapping) /\
   forall c : jsstring,
     In c (map category mapping) <-> In c (map Category pipelineData)) /\
  (forall (i : nat) (cd : CategoryColor),
      nth_error mapping i = Some cd -> color cd = nth_error colors i).
Proof.
  intros s mapping. subst mapping.
  rewrite categoryColorData_categories.
  split; [|split; [|split; [|split; [|split]]]].
  - intros this. now rewrite update_unwrapped, update_body_steps, Hpd.
  - unfold pipelineData_of in Hpd.
    destruct (first_dataView options) as [dataView|e]; [|discriminate].
    destruct (CONVERTER dataView) as [resultData|e] eqn:Hconv; [|discriminate].
    exists dataView, resultData. injection Hpd as <-. repeat split; assumption.
  - apply sort_Sorted.
  - intros configured Hc Hne.
    rewrite (categoryData_configured s pipelineData configured Hc Hne).
    split; [reflexivity | apply sort_Permutation].
  - intros Hf. rewrite (categoryData_observed s pipelineData Hf).
    pose proof (sort_Permutation (first_occurrences [] (map Category pipelineData))) as Hperm.
    split; [reflexivity|]. split.
    + apply (Permutation_NoDup (Permutation_sym Hperm)), first_occurrences_NoDup.
    + intros c. split; intros Hin.
      * apply (Permutation_in _ Hperm) in Hin.
        now apply first_occurrences_In in Hin.
      * apply (Permutation_in _ (Permutation_sym Hperm)).
        apply first_occurrences_In. split; [exact Hin | intros []].
  - intros i cd Hnth. now apply categoryColorData_palette in Hnth.
Qed.

End CategoryClaims.

(** C2, refuted as stated.  The configured list ["b,a"] gives the
    mapping the order a, b, not the configured order; and with the
    setting unset and 251 rows, the category of the last row is among
    the converted records but not in the mapping, which is derived from
    the first 250 only. *)
Lemma categories_sorted_and_truncated :
  (let mapping := categoryColorData_of (categoryData_of Categories.configured []) in
   map category mapping = [Some "a"; Some "b"] /\
   map category mapping <> map Some (split "," "b,a")) /\
  (exists pipelineData resultData : list Pipeline,
      pipelineData_of Categories.options = Normal pipelineData /\
      CONVERTER (Some Categories.dataView) = Normal resultData /\
      In (Some "Z") (map Category resultData) /\
      map category (categoryColorData_of (categoryData_of Categories.unset pipelineData))
      = [Some "A"]).
Proof.
  split.
  - cbv zeta. split; [reflexivity | discriminate].
  - pose (dp := fun c => {| Title := Some "Acme"; Phase := Some "Lead";
                            Category := Some c; Name := Some "WidgetA" |}).
    exists (repeat (dp "A") 250), (repeat (dp "A") 250 ++ [dp "Z"]).
    split; [vm_compute; reflexivity|].
    split; [vm_compute; reflexivity|].
    split; [|vm_compute; reflexivity].
    rewrite map_app. apply in_or_app. right. now left.
Qed.

(* ================================================================= *)
(** ** [renderPipelineReport] *)

(** A selection-wide operation whose callback returns on every element
    is a [map]; one that stops did so at an element whose callback
    threw. *)
Lemma each_all_normal {A : Type} (f : A -> completion A) (h : A -> A) (sel : list A) :
  (forall x, In x sel -> f x = Normal (h x)) -> each f sel = (map h sel, None).
Proof.
  induction sel as [|x xs IH]; intros Hall; simpl; [reflexivity|].
  rewrite (Hall x) by now left.
  rewrite IH by (intros y Hy; apply Hall; now right). reflexivity.
Qed.

Lemma each_in_groups_all_normal {A : Type} (f : A -> completion A) (h : A -> A)
  (groups : list (list A)) :
  (forall g x, In g groups -> In x g -> f x = Normal (h x)) ->
  each_in_groups f groups = (map (map h) groups, None).
Proof.
  induction groups as [|g gs IH]; intros Hall; simpl; [reflexivity|].
  rewrite (each_all_normal f h g) by (intros x Hx; apply (Hall g x); [now left | exact Hx]).
  rewrite IH by (intros g' x Hg Hx; apply (Hall g' x); [now right | exact Hx]).
  reflexivity.
Qed.

Lemma each_thrown {A : Type} (f : A -> completion A) (sel : list A) :
  (forall sel' e, each f sel = (sel', Some e) -> exists x, In x sel /\ f x = Throw e) /\
  (forall sel', each f sel = (sel', None) -> forall x, In x sel -> exists y, f x = Normal y).
Proof.
  induction sel as [|x xs [IHt IHn]]; simpl.
  - split; [discriminate | intros _ _ x []].
  - destruct (f x) as [y|e0] eqn:Hx.
    + destruct (each f xs) as [ys r] eqn:Hxs. split.
      * intros sel' e [= <- ->]. destruct (IHt ys e eq_refl) as (z & Hz & Hfz).
        exists z. split; [now right | exact Hfz].
      * intros sel' [= <- ->] z [<-|Hz]; [now exists y | now apply (IHn ys eq_refl)].
    + split.
      * intros sel' e [= <- <-]. exists x. split; [now left | exact Hx].
      * discriminate.
Qed.

Lemma each_in_groups_thrown {A : Type} (f : A -> completion A) (groups : list (list A)) :
  (forall groups' e, each_in_groups f groups = (groups', Some e) ->
     exists g x, In g groups /\ In x g /\ f x = Throw e) /\
  (forall groups', each_in_groups f groups = (groups', None) ->
     forall g x, In g groups -> In x g -> exists y, f x = Normal y).
Proof.
  induction groups as [|g gs [IHt IHn]]; simpl.
  - split; [discriminate | intros _ _ g x []].
  - destruct (each f g) as [g' [e0|]] eqn:Hg.
    + split; [|discriminate].
      intros groups' e [= <- <-].
      destruct (proj1 (each_thrown f g) g' e0 Hg) as (x & Hx & Hfx).
      exists g, x. repeat split; [now left | exact Hx | exact Hfx].
    + destruct (each_in_groups f gs) as [gs' r] eqn:Hgs. split.
      * intros groups' e [= <- ->].
        destruct (IHt gs' e eq_refl) as (g0 & x & Hg0 & Hx & Hfx).
        exists g0, x. repeat split; [now right | exact Hx | exact Hfx].
      * intros groups' [= <- ->] g0 x [Heq|Hg0] Hx.
        -- subst g0. apply (proj2 (each_thrown f g) g' Hg x Hx).
        -- apply (IHn gs' eq_refl g0 x Hg0 Hx).
Qed.

Lemma color_style_found (ccd : list CategoryColor) (d : Pipeline) :
  (exists cd, In cd ccd /\ category cd = Category d) ->
  color_style ccd d = Normal (shown_style ccd d).
Proof.
  intros (cd & Hin & Hcat). unfold shown_style, color_style.
  destruct (filter (fun cd0 => jsstring_eqb (category cd0) (Category d)) ccd) as [|c cs] eqn:Hf.
  - assert (Hcd : In cd (filter (fun cd0 => jsstring_eqb (category cd0) (Category d)) ccd)).
    { apply filter_In. split; [exact Hin | now apply jsstring_eqb_eq]. }
    rewrite Hf in Hcd. destruct Hcd.
  - reflexivity.
Qed.

Lemma color_style_normal (ccd : list CategoryColor) (d : Pipeline) (s : string) :
  color_style ccd d = Normal s -> exists cd, In cd ccd /\ category cd = Category d.
Proof.
  unfold color_style.
  destruct (filter (fun cd0 => jsstring_eqb (category cd0) (Category d)) ccd) as [|c cs] eqn:Hf;
    [discriminate|].
  intros _. assert (Hc : In c (filter (fun cd0 => jsstring_eqb (category cd0) (Category d)) ccd))
    by (rewrite Hf; now left).
  apply filter_In in Hc. destruct Hc as [Hin Heq]. exists c. split; [exact Hin|].
  now apply jsstring_eqb_eq.
Qed.

(** What [.text(...)] leaves in an element is the text shown. *)
Lemma text_nodes_shows (s : string) : text_nodes s = shows s.
Proof. destruct s; reflexivity. Qed.

Lemma text_field_shows (v : jsstring) : text_nodes (text_or_empty v) = shows_field v.
Proof. destruct v as [[|c s]|]; reflexivity. Qed.

Lemma phase_element_column (d : string) : phase_element d = phase_column d.
Proof.
  unfold phase_element, phase_column, text, attr, create, append_child.
  cbn [set_attr app]. now rewrite text_nodes_shows.
Qed.

Lemma legend_element_entry (cd : CategoryColor) : legend_element cd = legend_entry cd.
Proof.
  unfold legend_element, legend_entry, text, attr, create, append_child.
  cbn [set_attr app]. now rewrite text_field_shows.
Qed.

Lemma main_content_tree (title : string) (phaseData : list string)
  (companies : list (list node)) :
  main_content (text_nodes title) phaseData companies
  = content_tree title
      (wrap_tree (bar_tree [] phaseData) (companies_tree [] companies) []).
Proof.
  unfold main_content, content_tree, wrap_tree, bar_tree, companies_tree,
    attr, create, append_child.
  cbn [set_attr app].
  rewrite text_nodes_shows, (map_ext _ _ phase_element_column). reflexivity.
Qed.

Lemma renderPipelineReport_normal (phaseData : list string) (pipelineData : list Pipeline)
  (ccd : list CategoryColor) (this : Visual) (s : VisualSettings) :
  settings this = Some s ->
  categories_mapped phaseData pipelineData ccd ->
  renderPipelineReport phaseData pipelineData ccd this =
  (Normal tt,
   set_target
     (append_child
        (main_content (text_nodes (title (pipeline s))) phaseData
           (company_groups phaseData pipelineData ccd))
        (target this)) this).
Proof.
  intros Hs Hmapped. unfold renderPipelineReport. rewrite Hs.
  set (h := fun c : bound => (fst c, on_last_child (attr "style" (shown_style ccd (fst c))) (snd c))).
  assert (Hh : forall (groups : list (list bound)),
             (forall g x, In g groups -> In x g ->
                exists pd, In pd phaseData /\ In (fst x) pipelineData /\ Phase (fst x) = Some pd) ->
             each_in_groups (style_last ccd) groups = (map (map h) groups, None)).
  { intros groups Hg. apply each_in_groups_all_normal.
    intros g x Hin Hx. destruct (Hg g x Hin Hx) as (pd & Hpd & Hd & Hphase).
    unfold style_last. rewrite color_style_found; [reflexivity|].
    now apply (Hmapped (fst x) pd). }
  rewrite Hh.
  - rewrite Hh.
    + f_equal. f_equal. f_equal. unfold company_groups.
      rewrite !map_map. f_equal. apply map_ext. intros pd.
      rewrite !map_map. apply map_ext. intros d.
      unfold company_block. rewrite <- !text_field_shows. reflexivity.
    + intros g x Hg Hx.
      rewrite !map_map in Hg. apply in_map_iff in Hg. destruct Hg as (pd & <- & Hpd).
      rewrite !map_map in Hx. apply in_map_iff in Hx. destruct Hx as (d & <- & Hd).
      apply filter_In in Hd. destruct Hd as [Hd Hphase].
      exists pd. simpl. repeat split; [exact Hpd | exact Hd | now apply jsstring_eqb_eq].
  - intros g x Hg Hx.
    rewrite !map_map in Hg. apply in_map_iff in Hg. destruct Hg as (pd & <- & Hpd).
    rewrite !map_map in Hx. apply in_map_iff in Hx. destruct Hx as (d & <- & Hd).
    apply filter_In in Hd. destruct Hd as [Hd Hphase].
    exists pd. simpl. repeat split; [exact Hpd | exact Hd | now apply jsstring_eqb_eq].
Qed.

Lemma style_last_thrown (ccd : list CategoryColor) (c : bound) (e : exn) :
  style_last ccd c = Throw e -> e = cannot_read "undefined" "color".
Proof.
  unfold style_last, color_style.
  destruct (filter (fun cd => jsstring_eqb (category cd) (Category (fst c))) ccd);
    [intros [= <-]; reflexivity | discriminate].
Qed.

Lemma style_last_normal (ccd : list CategoryColor) (c c' : bound) :
  style_last ccd c = Normal c' ->
  exists cd, In cd ccd /\ category cd = Category (fst c).
Proof.
  unfold style_last. destruct (color_style ccd (fst c)) as [s|e] eqn:Hc; [|discriminate].
  intros _. now apply (color_style_normal ccd (fst c) s).
Qed.

(** The lookup takes the first entry of the mapping for the category. *)
Lemma color_found_style (ccd : list CategoryColor) (d : Pipeline) :
  (exists cd, In cd ccd /\ category cd = Category d) ->
  exists cd : CategoryColor,
    color_found ccd (Category d) = Some cd /\
    color_style ccd d = Normal ("color:" +:+ show_undefined (color cd) +:+ ";").
Proof.
  unfold color_found, color_style.
  induction ccd as [|x xs IH]; intros (cd0 & Hin & Hcat); [destruct Hin|].
  simpl. destruct (jsstring_eqb (category x) (Category d)) eqn:E.
  - exists x. split; reflexivity.
  - destruct Hin as [->|Hin].
    + apply jsstring_eqb_neq in E. contradiction.
    + apply IH. exists cd0. split; assumption.
Qed.

(** When the report returns, every record shown had its category in the
    mapping. *)
Lemma renderPipelineReport_mapped (phaseData : list string) (pipelineData : list Pipeline)
  (ccd : list CategoryColor) (this : Visual) (s : VisualSettings) :
  settings this = Some s ->
  fst (renderPipelineReport phaseData pipelineData ccd this) = Normal tt ->
  categories_mapped phaseData pipelineData ccd.
Proof.
  intros Hs. unfold renderPipelineReport. rewrite Hs.
  match goal with
  | |- context [each_in_groups ?f ?g] =>
      destruct (each_in_groups f g) as [companies [e|]] eqn:Heach
  end; [discriminate|].
  intros _ d pd Hd Hpd Hphase.
  pose proof (proj2 (each_in_groups_thrown _ _) _ Heach) as Hall.
  set (c := (d, append_child (attr "class" "company-name" (create "p"))
                  (attr "class" "company" (create "div")))).
  destruct (Hall
              (map (fun c : bound =>
                      (fst c, append_child (attr "class" "company-name" (create "p")) (snd c)))
                 (map (fun d => (d, attr "class" "company" (create "div")))
                    (filter (fun d => jsstring_eqb (Phase d) (Some pd)) pipelineData)))
              c) as (c' & Hc').
  - apply in_map_iff.
    exists (map (fun d => (d, attr "class" "company" (create "div")))
              (filter (fun d => jsstring_eqb (Phase d) (Some pd)) pipelineData)).
    split; [reflexivity|]. apply in_map_iff. exists pd. split; [reflexivity | exact Hpd].
  - rewrite map_map. apply in_map_iff. exists d. split; [reflexivity|].
    apply filter_In. split; [exact Hd | now apply jsstring_eqb_eq].
  - apply style_last_normal in Hc'. exact Hc'.
Qed.

(** What the report throws is the [TypeError] of the failed lookup. *)
Lemma renderPipelineReport_thrown (phaseData : list string) (pipelineData : list Pipeline)
  (ccd : list CategoryColor) (this : Visual) (s : VisualSettings) (e : exn) :
  settings this = Some s ->
  fst (renderPipelineReport phaseData pipelineData ccd this) = Throw e ->
  e = cannot_read "undefined" "color".
Proof.
  intros Hs. unfold renderPipelineReport. rewrite Hs.
  match goal with
  | |- context [each_in_groups ?f ?g] =>
      destruct (each_in_groups f g) as [companies [e1|]] eqn:Heach
  end.
  - simpl. intros [= <-].
    destruct (proj1 (each_in_groups_thrown _ _) _ _ Heach) as (g & x & _ & _ & Hx).
    now apply style_last_thrown in Hx.
  - match goal with
    | |- context [each_in_groups ?f ?g] =>
        destruct (each_in_groups f g) as [companies2 [e2|]] eqn:Heach2
    end; [|discriminate].
    simpl. intros [= <-].
    destruct (proj1 (each_in_groups_thrown _ _) _ _ Heach2) as (g & x & _ & _ & Hx).
    now apply style_last_thrown in Hx.
Qed.

(** A selection-wide operation keeps the groups of the selection. *)
Lemma each_in_groups_length {A : Type} (f : A -> completion A) (groups : list (list A)) :
  List.length (fst (each_in_groups f groups)) = List.length groups.
Proof.
  induction groups as [|g gs IH]; simpl; [reflexivity|].
  destruct (each f g) as [g' [e|]]; [reflexivity|].
  destruct (each_in_groups f gs) as [gs' r]. simpl in *. now rewrite IH.
Qed.

(** However the report ends, it has appended one tree to the content
    root, with the title, the phase bar and one group per phase label,
    and changed nothing else. *)
Lemma renderPipelineReport_partial (phaseData : list string) (pipelineData : list Pipeline)
  (ccd : list CategoryColor) (this : Visual) (s : VisualSettings) :
  settings this = Some s ->
  exists companies : list (list node),
    List.length companies = List.length phaseData /\
    snd (renderPipelineReport phaseData pipelineData ccd this)
    = set_target
        (append_child
           (main_content (text_nodes (title (pipeline s))) phaseData companies)
           (target this)) this.
Proof.
  intros Hs. unfold renderPipelineReport. rewrite Hs.
  match goal with
  | |- context [each_in_groups ?f ?g] =>
      pose proof (each_in_groups_length f g) as Hlen1;
      destruct (each_in_groups f g) as [companies [e1|]]
  end.
  - eexists. split; [|reflexivity].
    rewrite List.length_map. etransitivity; [exact Hlen1|]. now rewrite !List.length_map.
  - match goal with
    | |- context [each_in_groups ?f ?g] =>
        pose proof (each_in_groups_length f g) as Hlen2;
        destruct (each_in_groups f g) as [companies2 [e2|]]
    end; (eexists; split; [|reflexivity]);
      rewrite ?List.length_map; (etransitivity; [exact Hlen2|]);
      rewrite !List.length_map; (etransitivity; [exact Hlen1|]);
      now rewrite !List.length_map.
Qed.

(** C7.  With the settings in place, [renderPipelineReport] returns
    normally exactly when every record shown under one of the phases has
    its Category in the category-colour mapping: under that
    precondition each colour lookup finds an entry, and without it the
    one thing thrown is the [TypeError] of reading [color] of the
    missing entry. *)
Theorem color_lookup_precondition (phaseData : list string) (pipelineData : list Pipeline)
  (categoryColorData : list CategoryColor) (this : Visual) (s : VisualSettings)
  (Hs : settings this = Some s) :
  (categories_mapped phaseData pipelineData categoryColorData <->
   fst (renderPipelineReport phaseData pipelineData categoryColorData this) = Normal tt) /\
  (categories_mapped phaseData pipelineData categoryColorData ->
   forall (d : Pipeline) (pd : string),
     In d pipelineData -> In pd phaseData -> Phase d = Some pd ->
     exists cd : CategoryColor,
       color_found categoryColorData (Category d) = Some cd /\
       color_style categoryColorData d
       = Normal ("color:" +:+ show_undefined (color cd) +:+ ";")) /\
  (forall e : exn,
      fst (renderPipelineReport phaseData pipelineData categoryColorData this) = Throw e ->
      e = cannot_read "undefined" "color").
Proof.
  split; [split|split].
  - intros Hmapped.
    now rewrite (renderPipelineReport_normal _ _ _ _ s Hs Hmapped).
  - now apply (renderPipelineReport_mapped _ _ _ _ s).
  - intros Hmapped d pd Hd Hpd Hphase.
    apply color_found_style. now apply (Hmapped d pd).
  - intros e. now apply (renderPipelineReport_thrown _ _ _ _ s).
Qed.

(* ================================================================= *)
(** ** [renderLayout], [renderLegend], [handleScrollEvent] and the whole of [update] *)

Lemma phase_columns_unselected (cls : string) (f : node -> node) (phaseData : list string) :
  In cls selected_classes ->
  update_first_among (has_class cls) f (map phase_column phaseData) = None.
Proof.
  intros Hcls. induction phaseData as [|d ds IH]; [reflexivity|].
  cbn [map update_first_among]. rewrite IH.
  assert (Hd : update_first (has_class cls) f (phase_column d) = None).
  { destruct Hcls as [<-|[<-|[<-|[]]]];
      unfold phase_column, shows; destruct d; reflexivity. }
  now rewrite Hd.
Qed.

Lemma unselected_update_first (cls : string) (f : node -> node) (n : node) :
  unselected n -> In cls selected_classes -> update_first (has_class cls) f n = None.
Proof. intros Hn Hcls. apply update_first_None. now apply Hn. Qed.

Lemma update_first_hit (p : node -> bool) (f : node -> node) (n : node) :
  p n = true -> update_first p f n = Some (f n).
Proof. intros Hp. destruct n; simpl; now rewrite Hp. Qed.

(** The three selections, made inside the tree of the content root. *)
Lemma content_select_wrap (f : node -> node) title bar companiesWrap legend :
  update_first (has_class "pipeline-wrap") f
    (content_tree title (wrap_tree bar companiesWrap legend))
  = Some (content_tree title (f (wrap_tree bar companiesWrap legend))).
Proof.
  unfold content_tree, wrap_tree, shows.
  destruct title; reflexivity.
Qed.

Lemma content_select_bar (f : node -> node) title more phaseData companiesWrap legend :
  update_first (has_class "pipeline-bar") f
    (content_tree title (wrap_tree (bar_tree more phaseData) companiesWrap legend))
  = Some (content_tree title (wrap_tree (f (bar_tree more phaseData)) companiesWrap legend)).
Proof.
  unfold content_tree, wrap_tree, bar_tree, shows.
  destruct title; reflexivity.
Qed.

Lemma content_select_companies (f : node -> node) title more phaseData more' companies legend :
  update_first (has_class "companies-wrap") f
    (content_tree title
       (wrap_tree (bar_tree more phaseData) (companies_tree more' companies) legend))
  = Some (content_tree title
            (wrap_tree (bar_tree more phaseData) (f (companies_tree more' companies)) legend)).
Proof.
  unfold content_tree, wrap_tree.
  rewrite update_first_Elem. cbn [update_first_among].
  replace (has_class "companies-wrap" (Elem "div" [("class", "main-content")] _)) with false by reflexivity.
  cbv iota.
  replace (update_first (has_class "companies-wrap") f (Elem "div" [("class", "header")] _))
    with (@None node) by (unfold shows; destruct title; reflexivity).
  rewrite update_first_Elem.
  replace (has_class "companies-wrap" (Elem "div" [("class", "pipeline-wrap")] _)) with false by reflexivity.
  cbv iota. cbn [update_first_among].
  unfold bar_tree at 1. rewrite update_first_Elem.
  replace (has_class "companies-wrap" (Elem "div" (("class", "pipeline-bar") :: more) _)) with false by reflexivity.
  cbv iota. rewrite phase_columns_unselected by (right; now left).
  rewrite (update_first_hit _ _ (companies_tree more' companies)) by reflexivity.
  reflexivity.
Qed.

Lemma target_attrs_class (style : string) (attrs : list (string * string)) :
  get_attr "class" (target_attrs style attrs) = Some "pipeline-container".
Proof.
  unfold target_attrs. rewrite get_set_attr_other by discriminate. apply get_set_attr.
Qed.

Lemma target_attrs_style (style : string) (attrs : list (string * string)) :
  get_attr "style" (target_attrs style attrs) = Some style.
Proof. apply get_set_attr. Qed.

Lemma target_not_selected (cls tag : string) (style : string) attrs kids :
  In cls selected_classes ->
  has_class cls (Elem tag (target_attrs style attrs) kids) = false.
Proof.
  intros Hcls. unfold has_class. rewrite target_attrs_class.
  destruct Hcls as [<-|[<-|[<-|[]]]]; reflexivity.
Qed.

(** A selection by one of the three classes lands in the tree under the
    content root when the header holds none of them. *)
Lemma select_update_content (cls : string) (f : node -> node) (this : Visual)
  tag style attrs (content content' : node) :
  In cls selected_classes ->
  unselected (header this) ->
  target this = Elem tag (target_attrs style attrs) [content] ->
  update_first (has_class cls) f content = Some content' ->
  select_update (has_class cls) f this
  = Some (set_target (Elem tag (target_attrs style attrs) [content']) this).
Proof.
  intros Hcls Hheader Htarget Hcontent. unfold select_update.
  rewrite (unselected_update_first cls f _ Hheader Hcls).
  rewrite Htarget, update_first_Elem, target_not_selected by exact Hcls.
  cbn [update_first_among]. now rewrite Hcontent.
Qed.

(** Wherever a selection by one of the three classes lands, in the
    header, under the content root or in the footer, it leaves alone the
    settings, the notifications and the content root's own tag and
    attributes. *)
Lemma select_update_framed (cls : string) (f : node -> node) (this this' : Visual)
  s sent tag style attrs :
  In cls selected_classes ->
  framed s sent tag (target_attrs style attrs) this ->
  select_update (has_class cls) f this = Some this' ->
  framed s sent tag (target_attrs style attrs) this'.
Proof.
  intros Hcls (Hs & Hn & kids & Ht). unfold select_update, framed.
  destruct (update_first (has_class cls) f (header this)) as [h|].
  - intros [= <-]. split; [exact Hs|]. split; [exact Hn|]. now exists kids.
  - rewrite Ht, update_first_Elem, target_not_selected by exact Hcls.
    destruct (update_first_among (has_class cls) f kids) as [kids'|].
    + intros [= <-]. split; [exact Hs|]. split; [exact Hn|]. now exists kids'.
    + destruct (update_first (has_class cls) f (footer this)) as [ft|]; [|discriminate].
      intros [= <-]. split; [exact Hs|]. split; [exact Hn|]. now exists kids.
Qed.

(** A selection that has a match under the content root is not empty. *)
Lemma select_update_found (p : node -> bool) (f : node -> node) (this : Visual) (t : node) :
  update_first p f (target this) = Some t -> select_update p f this <> None.
Proof.
  intros Ht. unfold select_update.
  destruct (update_first p f (header this)); [discriminate|].
  rewrite Ht. discriminate.
Qed.

Lemma remove_all_elements_only (tag : string) attrs kids :
  (forall k, In k kids -> is_element k = true) ->
  remove_all_elements (Elem tag attrs kids) = Elem tag attrs [].
Proof.
  intros Hkids. simpl. f_equal.
  induction kids as [|k ks IH]; [reflexivity|].
  simpl. destruct k as [t a c|d].
  - apply IH. intros k Hk. apply Hkids. now right.
  - specialize (Hkids (Text d) (or_introl eq_refl)). discriminate.
Qed.

Section Bands.
Context {BROWSER : Browser}.

Lemma renderLayout_run (this : Visual) (s : VisualSettings) :
  settings this = Some s -> renderLayout this = (Normal tt, with_band s this).
Proof.
  intros Hs. unfold renderLayout, bind, this_settings, with_band. rewrite Hs.
  destruct (toLowerCase (layout (pipeline s)) =? "header")%string; [reflexivity|].
  destruct (toLowerCase (layout (pipeline s)) =? "footer")%string; reflexivity.
Qed.

(** A plain band leaves the header free of the selected classes. *)
Lemma with_band_unselected (s : VisualSettings) (this : Visual) :
  unselected (header this) -> plain_band s -> unselected (header (with_band s this)).
Proof.
  intros Hu Hplain. unfold with_band.
  destruct (String.eqb_spec (toLowerCase (layout (pipeline s))) "header") as [Hl|Hl].
  - simpl. destruct (header this) as [tag attrs kids|d]; [|exact Hu].
    intros cls Hcls. simpl attr. unfold html.
    rewrite find_first_Elem.
    assert (Hc : has_class cls (Elem tag (set_attr "class" "visual-header" attrs)
                                  (html_nodes (band_html s)))
                 = false).
    { unfold has_class. rewrite get_set_attr.
      destruct Hcls as [<-|[<-|[<-|[]]]]; reflexivity. }
    rewrite Hc. exact (Hplain Hl cls Hcls).
  - destruct (toLowerCase (layout (pipeline s)) =? "footer")%string; exact Hu.
Qed.

Lemma with_band_target (s : VisualSettings) (this : Visual) :
  target (with_band s this) = target this /\
  settings (with_band s this) = settings this /\
  notified (with_band s this) = notified this.
Proof.
  unfold with_band.
  destruct (toLowerCase (layout (pipeline s)) =? "header")%string; [repeat split|].
  destruct (toLowerCase (layout (pipeline s)) =? "footer")%string; repeat split.
Qed.

(** A layout that names no header band makes any band markup plain. *)
Lemma plain_band_no_header (s : VisualSettings) :
  toLowerCase (layout (pipeline s)) <> "header" -> plain_band s.
Proof. intros Hl Hheader. contradiction. Qed.

End Bands.

Section Rendered.
Context {number : Type} {NUM : JSNumber number} {BROWSER : Browser}.
Variable VisualSettings_parse : option (DataView number) -> VisualSettings.
Variable legendWrap_height : Visual -> number.

Local Abbreviation update := (update VisualSettings_parse legendWrap_height).
Local Abbreviation settings_of := (settings_of VisualSettings_parse).
Local Abbreviation entered := (entered VisualSettings_parse).
Local Abbreviation rendering_steps := (rendering_steps legendWrap_height).

Lemma entered_target (options : VisualUpdateOptions number) (this : Visual) tag attrs kids :
  target this = Elem tag attrs kids ->
  (forall k, In k kids -> is_element k = true) ->
  target (entered options this)
  = Elem tag (target_attrs (target_style (settings_of options) options) attrs) [].
Proof.
  intros Ht Hkids. unfold entered. cbn [target set_target set_settings notify].
  rewrite Ht, remove_all_elements_only by exact Hkids. reflexivity.
Qed.

(** [renderLegend] on a document whose first pipeline is the tree under
    the content root: the legend is appended to it and the companies
    area gets its height. *)
Lemma renderLegend_run (ccd : list CategoryColor) (this : Visual)
  tag style attrs title more phaseData more' companies legend :
  unselected (header this) ->
  target this
  = Elem tag (target_attrs style attrs)
      [content_tree title
         (wrap_tree (bar_tree more phaseData) (companies_tree more' companies) legend)] ->
  let measured :=
    set_target
      (Elem tag (target_attrs style attrs)
         [content_tree title
            (wrap_tree (bar_tree more phaseData) (companies_tree more' companies)
               (legend ++ [legend_tree ccd]))]) this in
  renderLegend legendWrap_height ccd this =
  (Normal tt,
   set_target
     (Elem tag (target_attrs style attrs)
        [content_tree title
           (wrap_tree (bar_tree more phaseData)
              (companies_tree
                 (set_attr "style" (companies_style (legendWrap_height measured)) more')
                 companies)
              (legend ++ [legend_tree ccd]))]) this).
Proof.
  intros Hheader Htarget measured. unfold renderLegend.
  rewrite (map_ext _ _ legend_element_entry).
  rewrite (select_update_content "pipeline-wrap" _ this tag style attrs _ _
             (or_introl eq_refl) Hheader Htarget (content_select_wrap _ _ _ _ _)).
  rewrite (select_update_content "companies-wrap" _ measured tag style attrs _ _
              (or_intror (or_introl eq_refl)) Hheader eq_refl
              (content_select_companies _ _ _ _ _ _ _)).
  reflexivity.
Qed.

Lemma handleScrollEvent_run (this : Visual)
  tag style attrs title more phaseData companiesWrap legend :
  unselected (header this) ->
  target this
  = Elem tag (target_attrs style attrs)
      [content_tree title (wrap_tree (bar_tree more phaseData) companiesWrap legend)] ->
  handleScrollEvent this =
  (Normal tt,
   set_target
     (Elem tag (target_attrs style attrs)
        [content_tree title
           (wrap_tree (bar_tree (set_attr "style" "margin-left:0px;" more) phaseData)
              companiesWrap legend)]) this).
Proof.
  intros Hheader Htarget. unfold handleScrollEvent.
  rewrite (select_update_content "pipeline-bar" _ this tag style attrs _ _
             (or_intror (or_intror (or_introl eq_refl))) Hheader Htarget
             (content_select_bar _ _ _ _ _ _)).
  reflexivity.
Qed.

Lemma scroll_listener_run (scrollLeft : number) (this : Visual)
  tag style attrs title more phaseData companiesWrap legend :
  unselected (header this) ->
  target this
  = Elem tag (target_attrs style attrs)
      [content_tree title (wrap_tree (bar_tree more phaseData) companiesWrap legend)] ->
  scroll_listener scrollLeft this =
  (Normal tt,
   set_target
     (Elem tag (target_attrs style attrs)
        [content_tree title
           (wrap_tree
              (bar_tree
                 (set_attr "style"
                    ("margin-left:" +:+ num_toString (num_neg scrollLeft) +:+ "px;") more)
                 phaseData)
              companiesWrap legend)]) this).
Proof.
  intros Hheader Htarget. unfold scroll_listener.
  rewrite (select_update_content "pipeline-bar" _ this tag style attrs _ _
             (or_intror (or_intror (or_introl eq_refl))) Hheader Htarget
             (content_select_bar _ _ _ _ _ _)).
  reflexivity.
Qed.

(** Whatever the header holds, [renderLegend] returns once the content
    root holds a pipeline, and [handleScrollEvent] always returns. *)
Lemma renderLegend_returns (ccd : list CategoryColor) (this : Visual)
  s sent tag style attrs title bar companiesWrap legend :
  settings this = Some s ->
  notified this = sent ->
  target this
  = Elem tag (target_attrs style attrs)
      [content_tree title (wrap_tree bar companiesWrap legend)] ->
  exists this' : Visual,
    renderLegend legendWrap_height ccd this = (Normal tt, this') /\
    framed s sent tag (target_attrs style attrs) this'.
Proof.
  intros Hs Hn Htarget.
  assert (Hframed : framed s sent tag (target_attrs style attrs) this).
  { split; [exact Hs|]. split; [exact Hn|]. eexists. exact Htarget. }
  unfold renderLegend.
  match goal with
  | |- context [select_update (has_class "pipeline-wrap") ?f this] =>
      destruct (select_update (has_class "pipeline-wrap") f this) as [measured|] eqn:Hwrap
  end.
  - pose proof (select_update_framed "pipeline-wrap" _ this measured s sent tag style attrs
                  (or_introl eq_refl) Hframed Hwrap) as Hmeasured.
    match goal with
    | |- context [select_update (has_class "companies-wrap") ?f measured] =>
        destruct (select_update (has_class "companies-wrap") f measured) as [styled|] eqn:Harea
    end.
    + exists styled. split; [reflexivity|].
      exact (select_update_framed "companies-wrap" _ measured styled s sent tag style attrs
               (or_intror (or_introl eq_refl)) Hmeasured Harea).
    + exists measured. split; [reflexivity | exact Hmeasured].
  - exfalso. revert Hwrap. eapply select_update_found.
    rewrite Htarget, update_first_Elem, target_not_selected by (now left).
    cbn [update_first_among]. now rewrite content_select_wrap.
Qed.

Lemma handleScrollEvent_returns (this : Visual) s sent tag style attrs :
  framed s sent tag (target_attrs style attrs) this ->
  exists this' : Visual,
    handleScrollEvent this = (Normal tt, this') /\
    framed s sent tag (target_attrs style attrs) this'.
Proof.
  intros Hframed. unfold handleScrollEvent.
  match goal with
  | |- context [select_update (has_class "pipeline-bar") ?f this] =>
      destruct (select_update (has_class "pipeline-bar") f this) as [reset|] eqn:Hbar
  end.
  - exists reset. split; [reflexivity|].
    exact (select_update_framed "pipeline-bar" _ this reset s sent tag style attrs
             (or_intror (or_intror (or_introl eq_refl))) Hframed Hbar).
  - exists this. split; [reflexivity | exact Hframed].
Qed.

(** The rendering steps on a visual whose content root was just emptied,
    whatever the header holds: they complete when every record shown
    has its category in the mapping, and the host is told so. *)
Lemma rendering_steps_complete (phaseData : list string) (pipelineData : list Pipeline)
  (ccd : list CategoryColor) (this : Visual) (s : VisualSettings) tag style attrs :
  settings this = Some s ->
  target this = Elem tag (target_attrs style attrs) [] ->
  categories_mapped phaseData pipelineData ccd ->
  exists this' : Visual,
    rendering_steps phaseData pipelineData ccd this = (Normal tt, this') /\
    framed s (notified this ++ [RenderingFinished]) tag (target_attrs style attrs) this'.
Proof.
  intros Hs Htarget Hmapped.
  destruct (with_band_target s this) as (Hbt & Hbs & Hbn).
  unfold rendering_steps, bind.
  rewrite (renderLayout_run this s Hs).
  rewrite (renderPipelineReport_normal phaseData pipelineData ccd (with_band s this) s)
    by (try assumption; now rewrite Hbs).
  rewrite main_content_tree, Hbt, Htarget. cbn [append_child app].
  match goal with
  | |- context [renderLegend legendWrap_height ccd ?reported] =>
      destruct (renderLegend_returns ccd reported s (notified this) tag style attrs
                  (title (pipeline s)) (bar_tree [] phaseData)
                  (companies_tree [] (company_groups phaseData pipelineData ccd)) [])
        as (measured & -> & Hmeasured);
      [now rewrite <- Hs, <- Hbs | exact Hbn | reflexivity |]
  end.
  destruct (handleScrollEvent_returns measured s (notified this) tag style attrs Hmeasured)
    as (reset & -> & (Hrs & Hrn & kids' & Hrt)).
  eexists. split; [reflexivity|].
  split; [exact Hrs|]. split; [|now exists kids'].
  cbn [modify snd notified notify]. now rewrite Hrn.
Qed.

(** The rendering steps on a visual whose content root was just emptied
    and whose header holds none of the selected classes, under a plain
    band: they complete, and leave the tree of [rendered_content]
    there. *)
Lemma rendering_steps_run (phaseData : list string) (pipelineData : list Pipeline)
  (ccd : list CategoryColor) (this : Visual) (s : VisualSettings) tag style attrs :
  settings this = Some s ->
  unselected (header this) ->
  plain_band s ->
  target this = Elem tag (target_attrs style attrs) [] ->
  categories_mapped phaseData pipelineData ccd ->
  exists legendWrapHeight : number,
    rendering_steps phaseData pipelineData ccd this =
    (Normal tt,
     notify RenderingFinished
       (set_target
          (Elem tag (target_attrs style attrs)
             [rendered_content s phaseData pipelineData ccd legendWrapHeight])
          (with_band s this))).
Proof.
  intros Hs Hheader Hplain Htarget Hmapped.
  destruct (with_band_target s this) as (Hbt & Hbs & _).
  pose proof (with_band_unselected s this Hheader Hplain) as Hbh.
  eexists.
  unfold rendering_steps, bind.
  rewrite (renderLayout_run this s Hs).
  rewrite (renderPipelineReport_normal phaseData pipelineData ccd (with_band s this) s)
    by (try assumption; now rewrite Hbs).
  rewrite main_content_tree, Hbt, Htarget. cbn [append_child app].
  erewrite renderLegend_run; [|exact Hbh|reflexivity].
  erewrite handleScrollEvent_run; [|exact Hbh|reflexivity].
  reflexivity.
Qed.

End Rendered.

Section UpdateOutcome.
Context {number : Type} {NUM : JSNumber number} {BROWSER : Browser}.
Variable VisualSettings_parse : option (DataView number) -> VisualSettings.
Variable legendWrap_height : Visual -> number.

Local Abbreviation update := (update VisualSettings_parse legendWrap_height).
Local Abbreviation settings_of := (settings_of VisualSettings_parse).
Local Abbreviation entered := (entered VisualSettings_parse).
Local Abbreviation rendering_steps := (rendering_steps legendWrap_height).

(** When the report throws, [update] throws what it threw, and the
    content root is left with the tree built until then. *)
Lemma update_report_thrown (options : VisualUpdateOptions number) (this : Visual)
  tag attrs kids (pipelineData : list Pipeline) (e : exn) :
  target this = Elem tag attrs kids ->
  (forall k, In k kids -> is_element k = true) ->
  let s := settings_of options in
  let phaseData := split "," (phases (pipeline s)) in
  let attrs' := target_attrs (target_style s options) attrs in
  let ccd := categoryColorData_of (categoryData_of s pipelineData) in
  fst (renderPipelineReport phaseData pipelineData ccd (with_band s (entered options this)))
  = Throw e ->
  exists n : node,
    ~ categories_mapped phaseData pipelineData ccd /\
    (is_element n = true /\
     exists companies : list (list node),
       List.length companies = List.length phaseData /\
       n = main_content (text_nodes (title (pipeline s))) phaseData companies) /\
    rendering_steps phaseData pipelineData ccd (entered options this) =
    (Throw (cannot_read "undefined" "color"),
     set_target (Elem tag attrs' [n]) (with_band s (entered options this))).
Proof.
  intros Htarget Hkids s phaseData attrs' ccd Hreport.
  pose proof (entered_target VisualSettings_parse options this tag attrs kids Htarget Hkids)
    as HE.
  fold s attrs' in HE.
  set (E := entered options this) in *.
  assert (HsE : settings E = Some s) by reflexivity.
  destruct (with_band_target s E) as (Hbt & Hbs & _).
  destruct (renderPipelineReport_partial phaseData pipelineData ccd (with_band s E) s)
    as (companies & Hlen & Hsnd); [now rewrite Hbs|].
  exists (main_content (text_nodes (title (pipeline s))) phaseData companies).
  split; [|split; [split; [reflexivity | now exists companies]|]].
  - intros Hmapped.
    rewrite (renderPipelineReport_normal _ _ _ (with_band s E) s) in Hreport;
      [discriminate | now rewrite Hbs | exact Hmapped].
  - unfold rendering_steps, bind. rewrite (renderLayout_run E s HsE).
    destruct (renderPipelineReport phaseData pipelineData ccd (with_band s E))
      as [c st] eqn:Hrun.
    simpl in Hreport, Hsnd. subst c st.
    rewrite (renderPipelineReport_thrown phaseData pipelineData ccd (with_band s E) s e);
      [|now rewrite Hbs | now rewrite Hrun].
    rewrite Hbt, HE. reflexivity.
Qed.

(** The three ways [update] ends, whatever the header holds: it throws
    where the records are obtained, with the content root emptied and
    sized; it throws in the report, at a record whose category the
    mapping lacks, with a partial tree under the content root; or it
    completes, with the host notified. *)
Lemma update_ends (options : VisualUpdateOptions number) (this : Visual) tag attrs kids :
  target this = Elem tag attrs kids ->
  (forall k, In k kids -> is_element k = true) ->
  let s := settings_of options in
  let phaseData := split "," (phases (pipeline s)) in
  let attrs' := target_attrs (target_style s options) attrs in
  (exists e : exn,
      pipelineData_of options = Throw e /\
      update options this = (Throw e, entered options this))
  \/ (exists (pipelineData : list Pipeline) (n : node),
         pipelineData_of options = Normal pipelineData /\
         ~ categories_mapped phaseData pipelineData
             (categoryColorData_of (categoryData_of s pipelineData)) /\
         (is_element n = true /\
          exists companies : list (list node),
            List.length companies = List.length phaseData /\
            n = main_content (text_nodes (title (pipeline s))) phaseData companies) /\
         update options this =
         (Throw (cannot_read "undefined" "color"),
          set_target (Elem tag attrs' [n]) (with_band s (entered options this))))
  \/ (exists (pipelineData : list Pipeline) (this' : Visual),
         pipelineData_of options = Normal pipelineData /\
         categories_mapped phaseData pipelineData
           (categoryColorData_of (categoryData_of s pipelineData)) /\
         update options this = (Normal tt, this') /\
         framed s (notified this ++ [RenderingStarted; RenderingFinished]) tag attrs' this').
Proof.
  intros Htarget Hkids s phaseData attrs'.
  pose proof (entered_target VisualSettings_parse options this tag attrs kids Htarget Hkids)
    as HE.
  fold s attrs' in HE.
  rewrite update_unwrapped, update_body_steps. fold s phaseData.
  destruct (pipelineData_of options) as [pipelineData|e] eqn:Hpd; [|left; now exists e].
  right.
  set (ccd := categoryColorData_of (categoryData_of s pipelineData)).
  destruct (fst (renderPipelineReport phaseData pipelineData ccd
                   (with_band s (entered options this))))
    as [[]|e] eqn:Hreport.
  - right.
    assert (Hmapped : categories_mapped phaseData pipelineData ccd).
    { apply (renderPipelineReport_mapped _ _ _ (with_band s (entered options this)) s);
        [|exact Hreport].
      now rewrite (proj1 (proj2 (with_band_target _ _))). }
    destruct (rendering_steps_complete legendWrap_height phaseData pipelineData ccd
                (entered options this) s tag (target_style s options) attrs
                eq_refl HE Hmapped)
      as (this' & Hrun & Hframed).
    exists pipelineData, this'. split; [reflexivity|]. split; [exact Hmapped|].
    split; [exact Hrun|].
    cbn [entered notified notify set_target set_settings] in Hframed.
    now rewrite <- app_assoc in Hframed.
  - left.
    destruct (update_report_thrown options this tag attrs kids pipelineData e
                Htarget Hkids Hreport)
      as (n & Hnot & Hn & Hrun).
    exists pipelineData, n. repeat split; try assumption; apply Hn.
Qed.

(** The same on a visual whose header holds none of the selected
    classes, under a plain band: when [update] completes, the whole
    tree is under the content root. *)
Lemma update_outcome (options : VisualUpdateOptions number) (this : Visual) tag attrs kids :
  target this = Elem tag attrs kids ->
  (forall k, In k kids -> is_element k = true) ->
  unselected (header this) ->
  plain_band (settings_of options) ->
  let s := settings_of options in
  let phaseData := split "," (phases (pipeline s)) in
  let attrs' := target_attrs (target_style s options) attrs in
  (exists e : exn,
      pipelineData_of options = Throw e /\
      update options this = (Throw e, entered options this))
  \/ (exists (pipelineData : list Pipeline) (n : node),
         pipelineData_of options = Normal pipelineData /\
         ~ categories_mapped phaseData pipelineData
             (categoryColorData_of (categoryData_of s pipelineData)) /\
         (is_element n = true /\
          exists companies : list (list node),
            List.length companies = List.length phaseData /\
            n = main_content (text_nodes (title (pipeline s))) phaseData companies) /\
         update options this =
         (Throw (cannot_read "undefined" "color"),
          set_target (Elem tag attrs' [n]) (with_band s (entered options this))))
  \/ (exists (pipelineData : list Pipeline) (legendWrapHeight : number),
         pipelineData_of options = Normal pipelineData /\
         categories_mapped phaseData pipelineData
           (categoryColorData_of (categoryData_of s pipelineData)) /\
         update options this =
         (Normal tt,
          notify RenderingFinished
            (set_target
               (Elem tag attrs'
                  [rendered_content s phaseData pipelineData
                     (categoryColorData_of (categoryData_of s pipelineData))
                     legendWrapHeight])
               (with_band s (entered options this))))).
Proof.
  intros Htarget Hkids Hheader Hplain s phaseData attrs'.
  pose proof (entered_target VisualSettings_parse options this tag attrs kids Htarget Hkids)
    as HE.
  fold s attrs' in HE.
  rewrite update_unwrapped, update_body_steps. fold s phaseData.
  destruct (pipelineData_of options) as [pipelineData|e] eqn:Hpd; [|left; now exists e].
  right.
  set (ccd := categoryColorData_of (categoryData_of s pipelineData)).
  destruct (fst (renderPipelineReport phaseData pipelineData ccd
                   (with_band s (entered options this))))
    as [[]|e] eqn:Hreport.
  - right.
    assert (Hmapped : categories_mapped phaseData pipelineData ccd).
    { apply (renderPipelineReport_mapped _ _ _ (with_band s (entered options this)) s);
        [|exact Hreport].
      now rewrite (proj1 (proj2 (with_band_target _ _))). }
    destruct (rendering_steps_run legendWrap_height phaseData pipelineData ccd
                (entered options this) s tag (target_style s options) attrs
                eq_refl Hheader Hplain HE Hmapped)
      as (legendWrapHeight & Hrun).
    exists pipelineData, legendWrapHeight. repeat split; assumption.
  - left.
    destruct (update_report_thrown options this tag attrs kids pipelineData e
                Htarget Hkids Hreport)
      as (n & Hnot & Hn & Hrun).
    exists pipelineData, n. repeat split; try assumption; apply Hn.
Qed.

End UpdateOutcome.

(** Reading a selection instead of changing it. *)
Lemma update_first_among_None (p : node -> bool) (f : node -> node) (l : list node) :
  update_first_among p f l = None <-> find_first_among p l = None.
Proof.
  induction l as [|k ks IH]; simpl; [tauto|].
  pose proof (update_first_None p f k) as Hk.
  destruct (update_first p f k), (find_first p k);
    try (split; discriminate);
    try (destruct Hk as [H1 H2]; try specialize (H1 eq_refl); try specialize (H2 eq_refl);
         discriminate).
  destruct (update_first_among p f ks), (find_first_among p ks);
    try tauto; split; try discriminate; intros H;
    destruct IH as [I1 I2]; try specialize (I1 eq_refl); try specialize (I2 eq_refl);
    discriminate.
Qed.

Lemma content_find_companies title more phaseData more' companies legend :
  find_first (has_class "companies-wrap")
    (content_tree title
       (wrap_tree (bar_tree more phaseData) (companies_tree more' companies) legend))
  = Some (companies_tree more' companies).
Proof.
  assert (Hbar : find_first_among (has_class "companies-wrap") (map phase_column phaseData)
                 = None).
  { apply (update_first_among_None _ (fun n => n)).
    apply phase_columns_unselected. right. now left. }
  unfold content_tree, wrap_tree, bar_tree.
  rewrite find_first_Elem.
  replace (has_class "companies-wrap" (Elem "div" [("class", "main-content")] _))
    with false by reflexivity.
  cbv iota. cbn [find_first_among].
  replace (find_first (has_class "companies-wrap") (Elem "div" [("class", "header")] _))
    with (@None node) by (unfold shows; destruct title; reflexivity).
  rewrite find_first_Elem.
  replace (has_class "companies-wrap" (Elem "div" [("class", "pipeline-wrap")] _))
    with false by reflexivity.
  cbv iota. cbn [find_first_among].
  rewrite find_first_Elem.
  replace (has_class "companies-wrap" (Elem "div" (("class", "pipeline-bar") :: more) _))
    with false by reflexivity.
  cbv iota. rewrite Hbar.
  unfold companies_tree. rewrite find_first_Elem. reflexivity.
Qed.

Lemma select_companies (this : Visual) tag style attrs title more phaseData more' companies
  legend :
  unselected (header this) ->
  target this
  = Elem tag (target_attrs style attrs)
      [content_tree title
         (wrap_tree (bar_tree more phaseData) (companies_tree more' companies) legend)] ->
  select (has_class "companies-wrap") this = Some (companies_tree more' companies).
Proof.
  intros Hheader Htarget. unfold select.
  rewrite (Hheader "companies-wrap") by (right; now left).
  rewrite Htarget, find_first_Elem, target_not_selected by (right; now left).
  cbn [find_first_among]. now rewrite content_find_companies.
Qed.

Lemma well_formed_target (this : Visual) :
  well_formed this ->
  exists tag attrs kids,
    target this = Elem tag attrs kids /\
    (forall k, In k kids -> is_element k = true) /\
    unselected (header this).
Proof.
  intros (Helem & Hkids & Hheader).
  destruct (target this) as [tag attrs kids|d]; try discriminate.
  exists tag, attrs, kids. repeat split; assumption.
Qed.

Section UpdateClaims.
Context {number : Type} {NUM : JSNumber number} {BROWSER : Browser}.
Variable VisualSettings_parse : option (DataView number) -> VisualSettings.
Variable legendWrap_height : Visual -> number.

Local Abbreviation update := (update VisualSettings_parse legendWrap_height).
Local Abbreviation settings_of := (settings_of VisualSettings_parse).
Local Abbreviation entered := (entered VisualSettings_parse).

(** The visual stays well-formed over an [update] whose band is plain,
    however it ends. *)
Lemma update_well_formed (options : VisualUpdateOptions number) (this : Visual) :
  well_formed this -> plain_band (settings_of options) ->
  well_formed (snd (update options this)).
Proof.
  intros Hwf Hplain.
  destruct (well_formed_target this Hwf) as (tag & attrs & kids & Htarget & Hkids & Hheader).
  pose proof (entered_target VisualSettings_parse options this tag attrs kids Htarget Hkids)
    as HE.
  destruct (update_outcome VisualSettings_parse legendWrap_height options this
              tag attrs kids Htarget Hkids Hheader Hplain)
    as [(e & _ & ->) | [(pd & n & _ & _ & [Hn _] & ->) | (pd & h & _ & _ & ->)]];
    cbn [snd].
  - unfold well_formed. rewrite HE.
    repeat split; [intros k [] | exact Hheader].
  - repeat split.
    + intros k [<-|[]]. exact Hn.
    + apply (with_band_unselected _ (entered options this)); [exact Hheader | exact Hplain].
  - repeat split.
    + intros k [<-|[]]. reflexivity.
    + apply (with_band_unselected _ (entered options this)); [exact Hheader | exact Hplain].
Qed.




(** The bands after an [update] whose band is plain: written by
    [renderLayout] when the records were obtained, untouched when
    [update] threw before. *)
Lemma update_bands (options : VisualUpdateOptions number) (this : Visual) :
  well_formed this ->
  plain_band (settings_of options) ->
  let that :=
    match pipelineData_of options with
    | Normal _ => with_band (settings_of options) this
    | Throw _ => this
    end in
  header (snd (update options this)) = header that /\
  footer (snd (update options this)) = footer that.
Proof.
  intros Hwf Hplain.
  destruct (well_formed_target this Hwf) as (tag & attrs & kids & Htarget & Hkids & Hun).
  assert (Hband : header (with_band (settings_of options) (entered options this))
                  = header (with_band (settings_of options) this) /\
                  footer (with_band (settings_of options) (entered options this))
                  = footer (with_band (settings_of options) this)).
  { unfold with_band.
    destruct (toLowerCase (layout (pipeline (settings_of options))) =? "header")%string;
      [split; reflexivity|].
    destruct (toLowerCase (layout (pipeline (settings_of options))) =? "footer")%string;
      split; reflexivity. }
  destruct (update_outcome VisualSettings_parse legendWrap_height options this
              tag attrs kids Htarget Hkids Hun Hplain)
    as [(e & -> & ->) | [(pd & n & -> & _ & _ & ->) | (pd & h & -> & _ & ->)]];
    cbn [snd header footer notify set_target]; try exact Hband.
  split; reflexivity.
Qed.

Lemma with_band_no_band (s : VisualSettings) (this : Visual) :
  toLowerCase (layout (pipeline s)) <> "header" ->
  toLowerCase (layout (pipeline s)) <> "footer" ->
  with_band s this = this.
Proof.
  intros Hheader Hfooter. unfold with_band.
  destruct (String.eqb_spec (toLowerCase (layout (pipeline s))) "header"); [contradiction|].
  destruct (String.eqb_spec (toLowerCase (layout (pipeline s))) "footer");
    [contradiction | reflexivity].
Qed.


End UpdateClaims.

(* ================================================================= *)
(** ** The visual as constructed, and mappings derived from the records *)

Lemma constructor_well_formed : well_formed constructor.
Proof.
  split; [reflexivity|]. split; [intros k []|].
  intros cls [<-|[<-|[<-|[]]]]; reflexivity.
Qed.

(** With no categories setting every record's category is in the mapping,
    which is derived from the records themselves. *)
Lemma categories_mapped_observed (s : VisualSettings) (phaseData : list string)
  (pipelineData : list Pipeline) :
  jsstring_truthy (categories (pipeline s)) = false ->
  categories_mapped phaseData pipelineData
    (categoryColorData_of (categoryData_of s pipelineData)).
Proof.
  intros Hunset d pd Hd _ _.
  assert (Hin : In (Category d)
                  (map category (categoryColorData_of (categoryData_of s pipelineData)))).
  { rewrite categoryColorData_categories, (categoryData_observed s pipelineData Hunset).
    apply (Permutation_in _ (Permutation_sym (sort_Permutation _))).
    apply first_occurrences_In. split; [now apply in_map | intros []]. }
  apply in_map_iff in Hin. destruct Hin as (cd & Hcat & Hcd).
  exists cd. split; assumption.
Qed.

(* ================================================================= *)
(** ** Further properties of [update] *)

Lemma set_attr_same (name value : string) (attrs : list (string * string)) :
  get_attr name attrs = Some value -> set_attr name value attrs = attrs.
Proof.
  induction attrs as [|[k v] rest IH]; simpl; [discriminate|].
  destruct (k =? name)%string; [intros [= ->]; reflexivity|].
  intros Hget. now rewrite IH.
Qed.

Lemma target_attrs_again (style : string) (attrs : list (string * string)) :
  target_attrs style (target_attrs style attrs) = target_attrs style attrs.
Proof.
  unfold target_attrs at 1.
  rewrite (set_attr_same "class") by apply target_attrs_class.
  apply set_attr_same, target_attrs_style.
Qed.

Section BandsAgain.
Context {BROWSER : Browser}.

Lemma with_band_again (s : VisualSettings) (this that : Visual) :
  header that = header (with_band s this) ->
  footer that = footer (with_band s this) ->
  header (with_band s that) = header that /\ footer (with_band s that) = footer that.
Proof.
  unfold with_band.
  destruct (toLowerCase (layout (pipeline s)) =? "header")%string.
  - cbn [header footer set_header]. intros Hh Hf. split; [|reflexivity].
    rewrite Hh. destruct (header this) as [tag attrs kids|d]; try reflexivity.
    cbn [attr html]. now rewrite (set_attr_same "class") by apply get_set_attr.
  - destruct (toLowerCase (layout (pipeline s)) =? "footer")%string.
    + cbn [header footer set_footer]. intros Hh Hf. split; [reflexivity|].
      rewrite Hf. destruct (footer this) as [tag attrs kids|d]; try reflexivity.
      cbn [attr html]. now rewrite (set_attr_same "class") by apply get_set_attr.
    + intros _ _. split; reflexivity.
Qed.

Lemma with_band_notified (s : VisualSettings) (this : Visual) :
  notified (with_band s this) = notified this.
Proof. apply with_band_target. Qed.

End BandsAgain.

Section UpdateProperties.
Context {number : Type} {NUM : JSNumber number} {BROWSER : Browser}.
Variable VisualSettings_parse : option (DataView number) -> VisualSettings.
Variable legendWrap_height : Visual -> number.

Local Abbreviation update := (update VisualSettings_parse legendWrap_height).
Local Abbreviation settings_of := (settings_of VisualSettings_parse).
Local Abbreviation entered := (entered VisualSettings_parse).
Local Abbreviation after_updates := (after_updates VisualSettings_parse legendWrap_height).
Local Abbreviation update_outcome := (update_outcome VisualSettings_parse legendWrap_height).
Local Abbreviation update_ends := (update_ends VisualSettings_parse legendWrap_height).

(** X1.  Whatever calls the host makes after constructing the visual,
    and however they end, as long as the band markup of each call
    brings no element of the classes the visual selects by from the
    document root, the content root stays an element whose children are
    elements, and the header holds no element of those classes. *)
Theorem constructed_visual_well_formed (calls : list (VisualUpdateOptions number))
  (Hplain : forall options, In options calls -> plain_band (settings_of options)) :
  well_formed (after_updates calls constructor).
Proof.
  unfold after_updates.
  generalize constructor_well_formed. generalize constructor.
  induction calls as [|options calls IH]; intros this Hwf; simpl; [exact Hwf|].
  apply IH.
  - intros o Ho. apply Hplain. now right.
  - apply update_well_formed; [exact Hwf | apply Hplain; now left].
Qed.

(** X2.  On a well-formed visual [update] tells the host that rendering
    started, and tells it that rendering finished exactly when it
    returns normally; nothing else is sent. *)
Theorem update_notifications (options : VisualUpdateOptions number) (this : Visual)
  (Hwf : well_formed this) :
  notified (snd (update options this)) =
  notified this ++ RenderingStarted ::
    match fst (update options this) with
    | Normal _ => [RenderingFinished]
    | Throw _ => []
    end.
Proof.
  destruct (well_formed_target this Hwf) as (tag & attrs & kids & Htarget & Hkids & _).
  destruct (update_ends options this tag attrs kids Htarget Hkids)
    as [(e & _ & ->) | [(pd & n & _ & _ & _ & ->) | (pd & this' & _ & _ & -> & Hframed)]];
    cbn [fst snd notified notify set_target]; rewrite ?with_band_notified;
    cbn [entered notified notify set_target set_settings];
    rewrite <- ?app_assoc; try reflexivity.
  destruct Hframed as (_ & -> & _). reflexivity.
Qed.

(** X3.  A second [update] with the same options after one that
    completed completes too and renders the same structure, on a
    well-formed visual and with plain band markup: one tree under the
    content root, built from the same settings, phases, records and
    colours, with the same header and footer; the trees can differ only
    in the legend height the browser measures. *)
Theorem update_twice_same_structure (options : VisualUpdateOptions number)
  (this this1 : Visual)
  (Hwf : well_formed this)
  (Hplain : plain_band (settings_of options))
  (Hfirst : update options this = (Normal tt, this1)) :
  exists (this2 : Visual) tag attrs (pipelineData : list Pipeline) (h1 h2 : number),
    let s := settings_of options in
    let phaseData := split "," (phases (pipeline s)) in
    let categoryColorData := categoryColorData_of (categoryData_of s pipelineData) in
    update options this1 = (Normal tt, this2) /\
    pipelineData_of options = Normal pipelineData /\
    target this1
    = Elem tag attrs [rendered_content s phaseData pipelineData categoryColorData h1] /\
    target this2
    = Elem tag attrs [rendered_content s phaseData pipelineData categoryColorData h2] /\
    header this2 = header this1 /\
    footer this2 = footer this1 /\
    settings this2 = settings this1.
Proof.
  destruct (well_formed_target this Hwf) as (tag & attrs & kids & Htarget & Hkids & Hheader).
  destruct (update_outcome options this tag attrs kids Htarget Hkids Hheader Hplain)
    as [(e & _ & Hrun) | [(pd & n & _ & _ & _ & Hrun) | (pd & h1 & Hpd & Hmapped & Hrun)]];
    rewrite Hrun in Hfirst; try discriminate.
  injection Hfirst as <-.
  set (s := settings_of options) in *.
  set (first := with_band s (entered options this)) in *.
  set (this1 := notify RenderingFinished (set_target _ first)).
  assert (Hh1 : unselected (header this1))
    by (apply (with_band_unselected s (entered options this)); [exact Hheader | exact Hplain]).
  destruct (update_outcome options this1 tag _ _ eq_refl) as
    [(e & He & _) | [(pd' & n & Hpd' & Hnot & _) | (pd' & h2 & Hpd' & _ & Hrun2)]].
  - intros k [<-|[]]. reflexivity.
  - exact Hh1.
  - exact Hplain.
  - fold s in He. rewrite Hpd in He. discriminate.
  - rewrite Hpd in Hpd'. injection Hpd' as <-. contradiction.
  - rewrite Hpd in Hpd'. injection Hpd' as <-.
    rewrite target_attrs_again in Hrun2.
    destruct (with_band_again s (entered options this) (entered options this1)
                eq_refl eq_refl) as [Hh Hf].
    eexists _, tag, _, pd, h1, h2. cbv zeta.
    split; [exact Hrun2|]. split; [exact Hpd|].
    split; [reflexivity|]. split; [reflexivity|].
    split; [exact Hh|]. split; [exact Hf|].
    subst this1 first. cbn [settings notify set_target].
    now rewrite !(proj1 (proj2 (with_band_target _ _))).
Qed.

(** X4.  With no categories setting the colours are derived from the
    records themselves, so on a well-formed visual and a data view with
    a table [update] always completes: no lookup can fail. *)
Theorem update_completes_unconfigured (options : VisualUpdateOptions number) (this : Visual)
  (dataView : DataView number) (more : list (DataView number))
  (tableView : DataViewTable number)
  (Hwf : well_formed this)
  (Hviews : dataViews options = Some (dataView :: more))
  (Htable : table dataView = Some tableView)
  (Hunset : jsstring_truthy (categories (pipeline (settings_of options))) = false) :
  fst (update options this) = Normal tt.
Proof.
  destruct (well_formed_target this Hwf) as (tag & attrs & kids & Htarget & Hkids & _).
  pose proof (pipelineData_of_table options dataView more tableView Hviews Htable) as Hpd.
  destruct (update_ends options this tag attrs kids Htarget Hkids)
    as [(e & He & _) | [(pd & n & _ & Hnot & _) | (pd & this' & _ & _ & -> & _)]].
  - rewrite Hpd in He. discriminate.
  - exfalso. apply Hnot. now apply categories_mapped_observed.
  - reflexivity.
Qed.

(** X5.  When a record shown under one of the phases has a category
    that the mapping lacks (a configured list that leaves it out),
    [update] throws the [TypeError] of reading [color] of [undefined]. *)
Theorem update_unmapped_category_throws (options : VisualUpdateOptions number) (this : Visual)
  (pipelineData : list Pipeline) (d : Pipeline) (pd : string)
  (Hwf : well_formed this)
  (Hpd : pipelineData_of options = Normal pipelineData)
  (Hd : In d pipelineData)
  (Hlabel : In pd (split "," (phases (pipeline (settings_of options)))))
  (Hphase : Phase d = Some pd)
  (Hout : forall cd, In cd (categoryColorData_of
                              (categoryData_of (settings_of options) pipelineData)) ->
                     category cd <> Category d) :
  fst (update options this) = Throw (cannot_read "undefined" "color").
Proof.
  destruct (well_formed_target this Hwf) as (tag & attrs & kids & Htarget & Hkids & _).
  destruct (update_ends options this tag attrs kids Htarget Hkids)
    as [(e & He & _) | [(pd' & n & _ & _ & _ & ->) | (pd' & this' & Hpd' & Hmapped & _)]].
  - rewrite Hpd in He. discriminate.
  - reflexivity.
  - rewrite Hpd in Hpd'. injection Hpd' as <-.
    destruct (Hmapped d pd Hd Hlabel Hphase) as (cd & Hcd & Hcat).
    exfalso. exact (Hout cd Hcd Hcat).
Qed.

End UpdateProperties.

Section MoreUpdateProperties.
Context {number : Type} {NUM : JSNumber number} {BROWSER : Browser}.
Variable VisualSettings_parse : option (DataView number) -> VisualSettings.
Variable VisualSettings_getDefault : VisualSettings.
Variable legendWrap_height : Visual -> number.

Local Abbreviation update := (update VisualSettings_parse legendWrap_height).
Local Abbreviation settings_of := (settings_of VisualSettings_parse).
Local Abbreviation entered := (entered VisualSettings_parse).
Local Abbreviation after_updates := (after_updates VisualSettings_parse legendWrap_height).
Local Abbreviation update_outcome := (update_outcome VisualSettings_parse legendWrap_height).
Local Abbreviation update_ends := (update_ends VisualSettings_parse legendWrap_height).
Local Abbreviation update_bands := (update_bands VisualSettings_parse legendWrap_height).

(** X6.  Without a first data view, or with one that has no table,
    [update] throws on any visual, right after the content root was
    emptied and sized: nothing is rendered, no band is written, and the
    host is not told that rendering finished. *)
Theorem update_without_table (options : VisualUpdateOptions number) (this : Visual)
  (Hmissing : match first_dataView_guarded options with
              | Some dataView => table dataView = None
              | None => True
              end) :
  exists e : exn,
    update options this = (Throw e, entered options this) /\
    notified (entered options this) = notified this ++ [RenderingStarted] /\
    header (entered options this) = header this /\
    footer (entered options this) = footer this.
Proof.
  assert (Hpd : exists e, pipelineData_of options = Throw e).
  { unfold pipelineData_of, first_dataView, CONVERTER.
    unfold first_dataView_guarded in Hmissing.
    destruct (dataViews options) as [dvs|]; [|eexists; reflexivity].
    destruct (nth_error dvs 0) as [dataView|]; [|eexists; reflexivity].
    rewrite Hmissing. eexists; reflexivity. }
  destruct Hpd as (e & Hpd). exists e.
  rewrite update_unwrapped, update_body_steps, Hpd. repeat split.
Qed.

(** X7.  On a table with no rows, on a well-formed visual and with
    plain band markup, [update] completes and renders an empty
    pipeline: the title paragraph with the title as its text (no text
    node for an empty title), the phase bar with one column per label,
    one empty group per phase label, and the legend of the configured
    categories (empty when none are configured). *)
Theorem update_empty_rows (options : VisualUpdateOptions number) (this : Visual)
  (dataView : DataView number) (more : list (DataView number))
  (tableView : DataViewTable number)
  (Hwf : well_formed this)
  (Hplain : plain_band (settings_of options))
  (Hviews : dataViews options = Some (dataView :: more))
  (Htable : table dataView = Some tableView)
  (Hrows : rows tableView = []) :
  let s := settings_of options in
  let phaseData := split "," (phases (pipeline s)) in
  exists (this' : Visual) tag attrs (legendWrapHeight : number),
    update options this = (Normal tt, this') /\
    target this'
    = Elem tag attrs
        [ Elem "div" [("class", "main-content")]
            [ Elem "div" [("class", "header")]
                [ Elem "p" []
                    (match title (pipeline s) with
                     | EmptyString => []
                     | String _ _ => [Text (title (pipeline s))]
                     end) ];
              Elem "div" [("class", "pipeline-wrap")]
                [ Elem "div" [("class", "pipeline-bar"); ("style", "margin-left:0px;")]
                    (map (fun d =>
                            Elem "div" [("class", "phase")]
                              [ Elem "p" [("class", "phase-text")]
                                  (match d with
                                   | EmptyString => []
                                   | String _ _ => [Text d]
                                   end);
                                Elem "div" [("class", "phase-arrow")] [];
                                Elem "div" [("class", "phase-rope")] [];
                                Elem "div" [("class", "phase-rope-circle")] [] ])
                       phaseData);
                  Elem "div" [("class", "companies-wrap");
                              ("style", companies_style legendWrapHeight)]
                    (map (fun _ => Elem "div" [("class", "phase-companies")] []) phaseData);
                  legend_tree (categoryColorData_of (categoryData_of s [])) ] ] ] /\
    (jsstring_truthy (categories (pipeline s)) = false ->
     legend_tree (categoryColorData_of (categoryData_of s []))
     = Elem "div" [("class", "legend-wrap")] []).
Proof.
  intros s phaseData.
  destruct (well_formed_target this Hwf) as (tag & attrs & kids & Htarget & Hkids & Hheader).
  pose proof (pipelineData_of_table options dataView more tableView Hviews Htable) as Hpd.
  rewrite Hrows in Hpd. simpl in Hpd.
  destruct (update_outcome options this tag attrs kids Htarget Hkids Hheader Hplain)
    as [(e & He & _) | [(pd & n & Hpd' & Hnot & _) | (pd & h & Hpd' & _ & Hrun)]].
  - rewrite Hpd in He. discriminate.
  - rewrite Hpd in Hpd'. injection Hpd' as <-.
    exfalso. apply Hnot. intros d pd' [].
  - rewrite Hpd in Hpd'. injection Hpd' as <-.
    eexists _, tag, _, h. split; [exact Hrun|]. split.
    + cbn [target notify set_target].
      unfold rendered_content, company_groups, content_tree, wrap_tree, bar_tree,
        companies_tree.
      cbn [filter]. rewrite map_map. reflexivity.
    + intros Hunset. fold s. rewrite (categoryData_observed s [] Hunset). reflexivity.
Qed.

(** X8.  Once the records are obtained, on a well-formed visual and
    with plain band markup, a header layout (in any letter case) makes
    [update] give the header container the class [visual-header] and
    replace its content by what the browser parses from the image tag
    of the image URL, or by nothing without a URL, and leaves the
    footer as it was; a footer layout does the same to the footer. *)
Theorem update_writes_band (options : VisualUpdateOptions number) (this : Visual)
  (pipelineData : list Pipeline)
  (Hwf : well_formed this)
  (Hplain : plain_band (settings_of options))
  (Hpd : pipelineData_of options = Normal pipelineData) :
  let s := settings_of options in
  let content :=
    match imgURL (pipeline s) with
    | Some (String c url) =>
        parse_html ("<img src=" +:+ quote +:+ String c url +:+ quote +:+ "/>")
    | _ => []
    end in
  let written (cls : string) (band : node) :=
    match band with
    | Elem tag attrs _ => Elem tag (set_attr "class" cls attrs) content
    | Text data => Text data
    end in
  (toLowerCase (layout (pipeline s)) = "header" ->
   header (snd (update options this)) = written "visual-header" (header this) /\
   footer (snd (update options this)) = footer this) /\
  (toLowerCase (layout (pipeline s)) = "footer" ->
   footer (snd (update options this)) = written "visual-footer" (footer this) /\
   header (snd (update options this)) = header this).
Proof.
  intros s content written.
  assert (Hcontent : html_nodes (band_html s) = content).
  { unfold html_nodes, band_html, content, jsstring_truthy, text_or_empty.
    destruct (imgURL (pipeline s)) as [[|c url]|]; reflexivity. }
  assert (Hwritten : forall cls band, html (band_html s) (attr "class" cls band) = written cls band).
  { intros cls [tag attrs kids|d]; [|reflexivity].
    unfold html, attr, written. now rewrite Hcontent. }
  destruct (update_bands options this Hwf Hplain) as [Hh Hf].
  rewrite Hpd in Hh, Hf. fold s in Hh, Hf. rewrite Hh, Hf.
  unfold with_band. split; intros Hlayout; rewrite Hlayout.
  - split; [apply Hwritten | reflexivity].
  - split; [apply Hwritten | reflexivity].
Qed.

(** X9.  On a well-formed visual, a band rendered by one update stays
    through any number of later updates whose layout is neither header
    nor footer: none of them clears or rewrites the header or the
    footer. *)
Theorem bands_stay (calls : list (VisualUpdateOptions number)) (this : Visual)
  (Hwf : well_formed this)
  (Hcalls : forall options, In options calls ->
              toLowerCase (layout (pipeline (settings_of options))) <> "header" /\
              toLowerCase (layout (pipeline (settings_of options))) <> "footer") :
  header (after_updates calls this) = header this /\
  footer (after_updates calls this) = footer this.
Proof.
  unfold after_updates. revert this Hwf.
  induction calls as [|options calls IH]; intros this Hwf; simpl; [split; reflexivity|].
  destruct (Hcalls options (or_introl eq_refl)) as [Hheader Hfooter].
  pose proof (plain_band_no_header _ Hheader) as Hplain.
  destruct (IH (fun o Ho => Hcalls o (or_intror Ho))
              (snd (update options this))
              (update_well_formed VisualSettings_parse legendWrap_height options this
                 Hwf Hplain))
    as [Hh Hf].
  rewrite Hh, Hf.
  destruct (update_bands options this Hwf Hplain) as [Hh1 Hf1].
  rewrite Hh1, Hf1.
  destruct (pipelineData_of options); [|split; reflexivity].
  rewrite (with_band_no_band _ this Hheader Hfooter). split; reflexivity.
Qed.

(** X10.  After an [update] that completed on a well-formed visual with
    plain band markup, the scroll listener run with a scroll offset
    sets the style of the phase bar to a left margin of minus that
    offset and changes nothing else of the rendered tree. *)
Theorem scroll_moves_phase_bar (options : VisualUpdateOptions number) (this this1 : Visual)
  (scrollLeft : number)
  (Hwf : well_formed this)
  (Hplain : plain_band (settings_of options))
  (Hrun : update options this = (Normal tt, this1)) :
  exists tag attrs (pipelineData : list Pipeline) (legendWrapHeight : number),
    let s := settings_of options in
    let phaseData := split "," (phases (pipeline s)) in
    let categoryColorData := categoryColorData_of (categoryData_of s pipelineData) in
    let tree (bar_style : string) :=
      Elem tag attrs
        [content_tree (title (pipeline s))
           (wrap_tree
              (bar_tree [("style", bar_style)] phaseData)
              (companies_tree [("style", companies_style legendWrapHeight)]
                 (company_groups phaseData pipelineData categoryColorData))
              [legend_tree categoryColorData])] in
    target this1 = tree "margin-left:0px;" /\
    scroll_listener scrollLeft this1
    = (Normal tt,
       set_target
         (tree ("margin-left:" +:+ num_toString (num_neg scrollLeft) +:+ "px;")) this1).
Proof.
  destruct (well_formed_target this Hwf) as (tag & attrs & kids & Htarget & Hkids & Hheader).
  destruct (update_outcome options this tag attrs kids Htarget Hkids Hheader Hplain)
    as [(e & _ & Hrun') | [(pd & n & _ & _ & _ & Hrun') | (pd & h & _ & _ & Hrun')]];
    rewrite Hrun' in Hrun; try discriminate.
  injection Hrun as <-.
  eexists tag, _, pd, h. cbv zeta. split; [reflexivity|].
  rewrite (scroll_listener_run scrollLeft _ tag
             (target_style (settings_of options) options) attrs
             (title (pipeline (settings_of options)))
             [("style", "margin-left:0px;")]
             (split "," (phases (pipeline (settings_of options))))
             (companies_tree [("style", companies_style h)]
                (company_groups (split "," (phases (pipeline (settings_of options)))) pd
                   (categoryColorData_of (categoryData_of (settings_of options) pd))))
             [legend_tree (categoryColorData_of (categoryData_of (settings_of options) pd))]);
    [reflexivity
    | apply (with_band_unselected _ (entered options this)); [exact Hheader | exact Hplain]
    | reflexivity].
Qed.

(** X11.  After [update], however it ends, the visual holds the settings
    parsed from the options, and [enumerateObjectInstances] describes
    them; on a visual that was never updated it describes the
    defaults. *)
Theorem enumerate_describes_settings {O R : Type}
  (VisualSettings_enumerateObjectInstances : VisualSettings -> O -> R)
  (enumerate_options : O) (options : VisualUpdateOptions number) (this : Visual)
  (Hwf : well_formed this) :
  settings (snd (update options this)) = Some (settings_of options) /\
  enumerateObjectInstances VisualSettings_getDefault VisualSettings_enumerateObjectInstances
    enumerate_options (snd (update options this))
  = VisualSettings_enumerateObjectInstances (settings_of options) enumerate_options /\
  enumerateObjectInstances VisualSettings_getDefault VisualSettings_enumerateObjectInstances
    enumerate_options constructor
  = VisualSettings_enumerateObjectInstances VisualSettings_getDefault enumerate_options.
Proof.
  assert (Hs : settings (snd (update options this)) = Some (settings_of options)).
  { destruct (well_formed_target this Hwf) as (tag & attrs & kids & Htarget & Hkids & _).
    destruct (update_ends options this tag attrs kids Htarget Hkids)
      as [(e & _ & ->) | [(pd & n & _ & _ & _ & ->) | (pd & this' & _ & _ & -> & Hframed)]];
      cbn [snd settings notify set_target];
      rewrite ?(proj1 (proj2 (with_band_target _ _))); try reflexivity.
    apply Hframed. }
  split; [exact Hs|]. split; [|reflexivity].
  unfold enumerateObjectInstances. now rewrite Hs.
Qed.

End MoreUpdateProperties.

(* ================================================================= *)
(** ** Further properties of the converter and of the colours *)

(** X12.  The palette has 15 colours: the first 15 categories of the
    mapping get a colour each, every later one gets none, and its legend
    entry is then styled with the text [color:undefined;]. *)
Theorem palette_exhausted (categoryData : list jsstring) (i : nat) (cd : CategoryColor)
  (Hentry : nth_error (categoryColorData_of categoryData) i = Some cd) :
  ((i < 15)%nat -> exists c : string, color cd = Some c /\ nth_error colors i = Some c) /\
  ((15 <= i)%nat ->
   color cd = None /\
   legend_element cd
   = Elem "div" [("class", "legend")]
       [Elem "p" [("style", "color:undefined;")] (text_nodes (text_or_empty (category cd)))]).
Proof.
  apply categoryColorData_palette in Hentry. destruct Hentry as [_ Hcolor].
  split.
  - intros Hlt.
    assert (Hlen : (i < List.length colors)%nat) by exact Hlt.
    apply nth_error_Some in Hlen.
    destruct (nth_error colors i) as [c|] eqn:Hc; [|contradiction].
    exists c. split; [exact Hcolor | reflexivity].
  - intros Hge.
    assert (Hnone : nth_error colors i = None) by (apply nth_error_None; exact Hge).
    rewrite Hnone in Hcolor. split; [exact Hcolor|].
    unfold legend_element. rewrite Hcolor. reflexivity.
Qed.

Section MoreConverterProperties.
Context {number : Type} {NUM : JSNumber number}.

(** X13.  Each index [CONVERTER] locates is either the initial value of
    its variable or the place of a column of the table, so a located
    cell is read inside the column list. *)
Theorem located_in_range (cols : list DataViewMetadataColumn) (r : role) :
  index_of_role r (locate cols) = initial_index r \/
  exists i : nat,
    index_of_role r (locate cols) = INum (Z.of_nat i) /\
    (i < List.length cols)%nat.
Proof.
  destruct (locate_last_taking r cols) as [(i & c & Hix & Hnth & _) | [Hix _]].
  - right. exists i. split; [exact Hix|].
    apply nth_error_Some. now rewrite Hnth.
  - now left.
Qed.

(** X14.  A column counts for one role only, the first of Title, Phase,
    Category, Name among its tags: when every column tagged Phase is
    also tagged Title, no column is located for Phase and the Phase of
    every record is [null], whatever the cells hold. *)
Theorem shadowed_role_is_null (cols : list DataViewMetadataColumn)
  (_rows : list (list (PrimitiveValue number))) (dp : Pipeline)
  (Hshadow : forall c, In c cols ->
               hasOwnProperty (roles c) "Phase" = true ->
               hasOwnProperty (roles c) "Title" = true)
  (Hdp : In dp (convert_rows (locate cols) _rows)) :
  _phaseIndex (locate cols) = INum (-1) /\ Phase dp = None.
Proof.
  assert (Hnone : forall c, In c cols -> takes RPhase c = false).
  { intros c Hc. unfold takes, primary_role.
    destruct (hasOwnProperty (roles c) "Title") eqn:Ht; [reflexivity|].
    destruct (hasOwnProperty (roles c) "Phase") eqn:Hp.
    - rewrite (Hshadow c Hc Hp) in Ht. discriminate.
    - destruct (hasOwnProperty (roles c) "Category"); [reflexivity|].
      destruct (hasOwnProperty (roles c) "Name"); reflexivity. }
  split.
  - destruct (locate_last_taking RPhase cols) as [(i & c & _ & Hnth & Htakes & _) | [Hix _]].
    + apply nth_error_In in Hnth. rewrite (Hnone c Hnth) in Htakes. discriminate.
    + exact Hix.
  - exact (untaken_field_null cols RPhase _rows dp Hnone Hdp).
Qed.

End MoreConverterProperties.

(* ================================================================= *)
(** ** The colours do not depend on the order of the records *)

Lemma string_leb_trans (a b c : string) :
  String.leb a b = true -> String.leb b c = true -> String.leb a c = true.
Proof.
  unfold String.leb. revert b c.
  induction a as [|x a IH]; intros [|y b] [|z c]; simpl; try congruence.
  unfold Ascii.compare.
  destruct (N.compare_spec (N_of_ascii x) (N_of_ascii y)) as [Hxy|Hxy|Hxy];
    destruct (N.compare_spec (N_of_ascii y) (N_of_ascii z)) as [Hyz|Hyz|Hyz];
    destruct (N.compare_spec (N_of_ascii x) (N_of_ascii z)) as [Hxz|Hxz|Hxz];
    try congruence; try lia; try (intros _ _; reflexivity).
  apply IH.
Qed.

Lemma sort_le_trans (a b c : jsstring) : sort_le a b -> sort_le b c -> sort_le a c.
Proof. unfold sort_le, sort_leb. apply string_leb_trans. Qed.

Lemma sort_StronglySorted (l : list jsstring) : StronglySorted sort_le (sort l).
Proof.
  apply Sorted_StronglySorted; [|apply sort_Sorted].
  intros a b c. apply sort_le_trans.
Qed.

(** Two orderings of the same values by the default comparator show the
    same string forms in the same places. *)
Lemma sorted_keys_unique (l1 l2 : list jsstring) :
  StronglySorted sort_le l1 -> StronglySorted sort_le l2 ->
  Permutation (map sort_key l1) (map sort_key l2) ->
  map sort_key l1 = map sort_key l2.
Proof.
  revert l2. induction l1 as [|a l1 IH]; intros l2 H1 H2 Hperm.
  - apply Permutation_nil in Hperm. now rewrite Hperm.
  - destruct l2 as [|b l2].
    + apply Permutation_sym, Permutation_nil in Hperm. discriminate.
    + inversion H1 as [|? ? Hs1 Hall1]; subst. inversion H2 as [|? ? Hs2 Hall2]; subst.
      assert (Hkey : sort_key a = sort_key b).
      { apply String.leb_antisym.
        - assert (Hin : In (sort_key b) (map sort_key (a :: l1)))
            by (apply (Permutation_in _ (Permutation_sym Hperm)); now left).
          destruct Hin as [Heq|Hin]; [rewrite Heq; now apply sort_leb_key|].
          apply in_map_iff in Hin. destruct Hin as (x & Hx & Hxin).
          rewrite <- Hx. rewrite Forall_forall in Hall1. exact (Hall1 x Hxin).
        - assert (Hin : In (sort_key a) (map sort_key (b :: l2)))
            by (apply (Permutation_in _ Hperm); now left).
          destruct Hin as [Heq|Hin]; [rewrite Heq; now apply sort_leb_key|].
          apply in_map_iff in Hin. destruct Hin as (x & Hx & Hxin).
          rewrite <- Hx. rewrite Forall_forall in Hall2. exact (Hall2 x Hxin). }
      simpl. rewrite Hkey. f_equal. apply IH; try assumption.
      simpl in Hperm. rewrite Hkey in Hperm. now apply Permutation_cons_inv in Hperm.
Qed.


Lemma first_occurrences_Permutation (l1 l2 : list jsstring) :
  Permutation l1 l2 ->
  Permutation (first_occurrences [] l1) (first_occurrences [] l2).
Proof.
  intros Hperm. apply NoDup_Permutation; try apply first_occurrences_NoDup.
  intros x. rewrite !first_occurrences_In. split; intros [Hin Hnot]; split; try exact Hnot.
  - now apply (Permutation_in _ Hperm).
  - now apply (Permutation_in _ (Permutation_sym Hperm)).
Qed.

Lemma categoryColorData_colors (categoryData : list jsstring) :
  forall start,
    map color (map_from (fun d i => {| category := d; color := nth_error colors i |})
                 start categoryData)
    = map (nth_error colors) (seq start (List.length categoryData)).
Proof.
  induction categoryData as [|d ds IH]; intros start; simpl; [reflexivity|].
  now rewrite IH.
Qed.

Lemma sort_key_injective (l1 l2 : list jsstring) :
  (forall x, In x l1 -> x <> Some "null") ->
  (forall x, In x l2 -> x <> Some "null") ->
  map sort_key l1 = map sort_key l2 -> l1 = l2.
Proof.
  revert l2. induction l1 as [|a l1 IH]; intros [|b l2] H1 H2 Hmap; try discriminate.
  - reflexivity.
  - simpl in Hmap. injection Hmap as Hab Hrest. f_equal.
    + pose proof (H1 a (or_introl eq_refl)) as Ha.
      pose proof (H2 b (or_introl eq_refl)) as Hb.
      destruct a as [x|], b as [y|]; simpl in Hab; congruence.
    + apply IH; [intros x Hx; apply H1; now right | intros x Hx; apply H2; now right | exact Hrest].
Qed.

(** X15.  With no categories setting, two lists of records handed to
    rendering that hold the same records in different orders give
    mappings that agree place by place on the string forms of the
    categories and on the colours; the mappings are equal when no record
    has the literal category ["null"] (which sorts like a missing
    category). *)
Theorem colours_independent_of_record_order (s : VisualSettings)
  (pipelineData1 pipelineData2 : list Pipeline)
  (Hunset : jsstring_truthy (categories (pipeline s)) = false)
  (Hperm : Permutation pipelineData1 pipelineData2) :
  let mapping1 := categoryColorData_of (categoryData_of s pipelineData1) in
  let mapping2 := categoryColorData_of (categoryData_of s pipelineData2) in
  map (fun cd => sort_key (category cd)) mapping1
  = map (fun cd => sort_key (category cd)) mapping2 /\
  map color mapping1 = map color mapping2 /\
  ((forall d, In d pipelineData1 -> Category d <> Some "null") -> mapping1 = mapping2).
Proof.
  intros mapping1 mapping2.
  set (l1 := first_occurrences [] (map Category pipelineData1)).
  set (l2 := first_occurrences [] (map Category pipelineData2)).
  assert (Hl : Permutation l1 l2)
    by (apply first_occurrences_Permutation; now apply Permutation_map).
  assert (Hkeys : map sort_key (sort l1) = map sort_key (sort l2)).
  { apply sorted_keys_unique; try apply sort_StronglySorted.
    apply Permutation_map.
    rewrite (sort_Permutation l1), (sort_Permutation l2). exact Hl. }
  assert (Hc1 : map category mapping1 = sort l1).
  { unfold mapping1. now rewrite categoryColorData_categories, categoryData_observed. }
  assert (Hc2 : map category mapping2 = sort l2).
  { unfold mapping2. now rewrite categoryColorData_categories, categoryData_observed. }
  split; [|split].
  - rewrite <- (map_map category sort_key mapping1), <- (map_map category sort_key mapping2).
    now rewrite Hc1, Hc2.
  - unfold mapping1, mapping2, categoryColorData_of.
    rewrite !categoryColorData_colors, !(categoryData_observed s) by exact Hunset.
    fold l1 l2. f_equal. f_equal.
    rewrite <- (List.length_map sort_key (sort l1)), Hkeys. apply List.length_map.
  - intros Hnull.
    assert (Heq : sort l1 = sort l2).
    { apply sort_key_injective; [| |exact Hkeys].
      - intros x Hx. apply (Permutation_in _ (sort_Permutation l1)) in Hx.
        apply first_occurrences_In in Hx. destruct Hx as [Hx _].
        apply in_map_iff in Hx. destruct Hx as (d & <- & Hd). now apply Hnull.
      - intros x Hx. apply (Permutation_in _ (sort_Permutation l2)) in Hx.
        apply first_occurrences_In in Hx. destruct Hx as [Hx _].
        apply in_map_iff in Hx. destruct Hx as (d & <- & Hd).
        apply Hnull. now apply (Permutation_in _ (Permutation_sym Hperm)). }
    unfold mapping1, mapping2.
    rewrite !(categoryData_observed s) by exact Hunset. fold l1 l2. now rewrite Heq.
Qed.

Lemma colours_independent_of_record_order_witness :
  let a := {| Title := Some "Acme"; Phase := Some "Lead"; Category := Some "Sales";
              Name := Some "WidgetA" |} in
  let b := {| Title := Some "Globex"; Phase := Some "Closed"; Category := Some "Marketing";
              Name := Some "WidgetB" |} in
  map color (categoryColorData_of (categoryData_of Categories.unset [a; b]))
  = map color (categoryColorData_of (categoryData_of Categories.unset [b; a])).
Proof.
  exact (proj1 (proj2 (colours_independent_of_record_order Categories.unset _ _
                         eq_refl (perm_swap _ _ [])))).
Defined.

(* ================================================================= *)
(** ** The rendered tree in full, and the tree a failed report leaves *)

Section RenderedTree.
Context {number : Type} {NUM : JSNumber number} {BROWSER : Browser}.
Variable VisualSettings_parse : option (DataView number) -> VisualSettings.
Variable legendWrap_height : Visual -> number.

Local Abbreviation update := (update VisualSettings_parse legendWrap_height).
Local Abbreviation settings_of := (settings_of VisualSettings_parse).
Local Abbreviation entered := (entered VisualSettings_parse).
Local Abbreviation update_outcome := (update_outcome VisualSettings_parse legendWrap_height).
Local Abbreviation update_ends := (update_ends VisualSettings_parse legendWrap_height).

(** X16.  After an [update] that completed on a well-formed visual
    with plain band markup, the content root holds one [main-content]
    tree: the title paragraph, with the title as its text; the phase
    bar, reset to a left margin of 0, with one column per label of the
    comma-split phases setting, in order, each made of the label as
    text, an arrow, a rope and a rope circle; the companies area; and
    the legend, with one entry per entry of the colour mapping, in the
    mapping's order, with the category as text in its colour.  An empty
    text and a [null] category leave no text node. *)
Theorem update_renders_bar_and_legend (options : VisualUpdateOptions number)
  (this this1 : Visual)
  (Hwf : well_formed this)
  (Hplain : plain_band (settings_of options))
  (Hrun : update options this = (Normal tt, this1)) :
  exists tag attrs (pipelineData : list Pipeline) (companiesWrap : node),
    let s := settings_of options in
    let phaseData := split "," (phases (pipeline s)) in
    let categoryColorData := categoryColorData_of (categoryData_of s pipelineData) in
    pipelineData_of options = Normal pipelineData /\
    target this1 =
    Elem tag attrs
      [ Elem "div" [("class", "main-content")]
          [ Elem "div" [("class", "header")]
              [ Elem "p" []
                  (match title (pipeline s) with
                   | EmptyString => []
                   | String _ _ => [Text (title (pipeline s))]
                   end) ];
            Elem "div" [("class", "pipeline-wrap")]
              [ Elem "div" [("class", "pipeline-bar"); ("style", "margin-left:0px;")]
                  (map (fun d =>
                          Elem "div" [("class", "phase")]
                            [ Elem "p" [("class", "phase-text")]
                                (match d with
                                 | EmptyString => []
                                 | String _ _ => [Text d]
                                 end);
                              Elem "div" [("class", "phase-arrow")] [];
                              Elem "div" [("class", "phase-rope")] [];
                              Elem "div" [("class", "phase-rope-circle")] [] ])
                     phaseData);
                companiesWrap;
                Elem "div" [("class", "legend-wrap")]
                  (map (fun cd =>
                          Elem "div" [("class", "legend")]
                            [ Elem "p"
                                [("style", "color:" +:+ show_undefined (color cd) +:+ ";")]
                                (match category cd with
                                 | Some c =>
                                     match c with
                                     | EmptyString => []
                                     | String _ _ => [Text c]
                                     end
                                 | None => []
                                 end) ])
                     categoryColorData) ] ] ].
Proof.
  destruct (well_formed_target this Hwf) as (tag & attrs & kids & Htarget & Hkids & Hheader).
  destruct (update_outcome options this tag attrs kids Htarget Hkids Hheader Hplain)
    as [(e & _ & Hrun') | [(pd & n & _ & _ & _ & Hrun') | (pd & h & Hpd & _ & Hrun')]];
    rewrite Hrun' in Hrun; try discriminate.
  injection Hrun as <-.
  eexists tag, _, pd, _. cbv zeta. split; [exact Hpd|]. reflexivity.
Qed.

(** X17.  When [update] has obtained the records and then throws, the
    content root is left with a partial pipeline: the title, the phase
    bar and one group per phase label are there, but the bar and the
    companies area have no style and there is no legend. *)
Theorem failed_report_leaves_partial_tree (options : VisualUpdateOptions number)
  (this : Visual) (pipelineData : list Pipeline) (e : exn)
  (Hwf : well_formed this)
  (Hpd : pipelineData_of options = Normal pipelineData)
  (Hthrow : fst (update options this) = Throw e) :
  exists tag attrs (companies : list (list node)),
    let s := settings_of options in
    let phaseData := split "," (phases (pipeline s)) in
    List.length companies = List.length phaseData /\
    target (snd (update options this)) =
    Elem tag attrs
      [content_tree (title (pipeline s))
         (wrap_tree (bar_tree [] phaseData) (companies_tree [] companies) [])].
Proof.
  destruct (well_formed_target this Hwf) as (tag & attrs & kids & Htarget & Hkids & _).
  destruct (update_ends options this tag attrs kids Htarget Hkids)
    as [(e' & He & _) | [(pd & n & _ & _ & [_ (companies & Hlen & ->)] & Hrun)
                        | (pd & this' & _ & _ & Hrun & _)]].
  - rewrite Hpd in He. discriminate.
  - rewrite Hrun. cbn [snd target set_target].
    eexists tag, _, companies. cbv zeta. split; [exact Hlen|].
    now rewrite main_content_tree.
  - rewrite Hrun in Hthrow. discriminate.
Qed.

End RenderedTree.

(* ================================================================= *)
(** ** How many blocks the companies area holds *)

(** Records of distinct labels: counting label by label is counting the
    records whose phase is one of the labels. *)
Lemma filter_length_disjoint {A : Type} (p q : A -> bool) (l : list A) :
  (forall x, In x l -> p x = true -> q x = false) ->
  List.length (filter (fun x => p x || q x) l)
  = (List.length (filter p l) + List.length (filter q l))%nat.
Proof.
  induction l as [|x xs IH]; intros Hdis; simpl; [reflexivity|].
  assert (IH' := IH (fun y Hy => Hdis y (or_intror Hy))).
  destruct (p x) eqn:Hp; simpl.
  - rewrite (Hdis x (or_introl eq_refl) Hp). simpl. now rewrite IH'.
  - destruct (q x); simpl; rewrite IH'; lia.
Qed.

Lemma company_groups_count (phaseData : list string) (pipelineData : list Pipeline)
  (ccd : list CategoryColor) :
  NoDup phaseData ->
  List.length (List.concat (company_groups phaseData pipelineData ccd))
  = List.length
      (filter (fun d => existsb (fun pd => jsstring_eqb (Phase d) (Some pd)) phaseData)
         pipelineData).
Proof.
  unfold company_groups.
  induction phaseData as [|pd pds IH]; intros Hnodup; simpl.
  - induction pipelineData as [|d ds IHd]; [reflexivity | exact IHd].
  - inversion Hnodup as [|? ? Hnotin Hrest]; subst.
    rewrite List.length_app, List.length_map, (IH Hrest).
    symmetry. apply filter_length_disjoint.
    intros d _ Hd. apply jsstring_eqb_eq in Hd.
    apply not_true_is_false. intros Hex. apply existsb_exists in Hex.
    destruct Hex as (pd' & Hin & Hd'). apply jsstring_eqb_eq in Hd'.
    rewrite Hd in Hd'. injection Hd' as <-. contradiction.
Qed.

Section CompaniesArea.
Context {number : Type} {NUM : JSNumber number} {BROWSER : Browser}.
Variable VisualSettings_parse : option (DataView number) -> VisualSettings.
Variable legendWrap_height : Visual -> number.

Local Abbreviation update := (update VisualSettings_parse legendWrap_height).
Local Abbreviation settings_of := (settings_of VisualSettings_parse).
Local Abbreviation entered := (entered VisualSettings_parse).
Local Abbreviation update_outcome := (update_outcome VisualSettings_parse legendWrap_height).

(** The companies area a completed [update] leaves to be selected. *)
Lemma update_companies_selected (options : VisualUpdateOptions number) (this this1 : Visual) :
  well_formed this ->
  plain_band (settings_of options) ->
  update options this = (Normal tt, this1) ->
  exists (attrs : list (string * string)) (pipelineData : list Pipeline),
    pipelineData_of options = Normal pipelineData /\
    select (has_class "companies-wrap") this1
    = Some (companies_tree attrs
              (company_groups (split "," (phases (pipeline (settings_of options))))
                 pipelineData
                 (categoryColorData_of (categoryData_of (settings_of options) pipelineData)))).
Proof.
  intros Hwf Hplain Hrun.
  destruct (well_formed_target this Hwf) as (tag & attrs & kids & Htarget & Hkids & Hheader).
  destruct (update_outcome options this tag attrs kids Htarget Hkids Hheader Hplain)
    as [(e & _ & Hrun') | [(pd & n & _ & _ & _ & Hrun') | (pd & h & Hpd & _ & Hrun')]];
    rewrite Hrun' in Hrun; try discriminate.
  injection Hrun as <-.
  eexists _, pd. split; [exact Hpd|].
  erewrite select_companies;
    [ reflexivity
    | apply (with_band_unselected _ (entered options this)); [exact Hheader | exact Hplain]
    | reflexivity ].
Qed.

(** X18.  The cap of 250 records bounds the document: after an [update]
    that completed on a well-formed visual with plain band markup, the
    companies area has one group per phase label, and no group holds
    more than 250 company blocks. *)
Theorem companies_area_bounded (options : VisualUpdateOptions number) (this this1 : Visual)
  (Hwf : well_formed this)
  (Hplain : plain_band (settings_of options))
  (Hrun : update options this = (Normal tt, this1)) :
  exists (attrs : list (string * string)) (groups : list (list node)),
    select (has_class "companies-wrap") this1
    = Some (Elem "div" (("class", "companies-wrap") :: attrs)
              (map (fun kids => Elem "div" [("class", "phase-companies")] kids) groups)) /\
    List.length groups
    = List.length (split "," (phases (pipeline (settings_of options)))) /\
    Forall (fun kids => (List.length kids <= 250)%nat) groups.
Proof.
  destruct (update_companies_selected options this this1 Hwf Hplain Hrun)
    as (attrs & pd & Hpd & Hselect).
  eexists attrs, _. split; [exact Hselect|]. split.
  - unfold company_groups. apply List.length_map.
  - assert (Hlen : (List.length pd <= 250)%nat).
    { unfold pipelineData_of in Hpd.
      destruct (first_dataView options) as [dv|]; [|discriminate].
      destruct (CONVERTER dv) as [all|]; [|discriminate].
      assert (Heq : pd = firstn 250 all) by (unfold slice0 in Hpd; congruence).
      rewrite Heq. apply List.firstn_le_length. }
    unfold company_groups. apply Forall_forall. intros kids Hin.
    apply in_map_iff in Hin. destruct Hin as (label & <- & _).
    rewrite List.length_map.
    pose proof (List.filter_length_le
                  (fun d => jsstring_eqb (Phase d) (Some label)) pd). lia.
Qed.

(** X19.  Records whose Phase is [null] or is none of the phase labels
    are shown nowhere: after an [update] that completed on a
    well-formed visual with plain band markup, when the labels of the
    phases setting are distinct, the blocks of all groups of the
    companies area, counted together, are as many as the records handed
    to rendering whose Phase is one of the labels. *)
Theorem unmatched_records_hidden (options : VisualUpdateOptions number) (this this1 : Visual)
  (Hwf : well_formed this)
  (Hplain : plain_band (settings_of options))
  (Hrun : update options this = (Normal tt, this1))
  (Hlabels : NoDup (split "," (phases (pipeline (settings_of options))))) :
  exists (attrs : list (string * string)) (groups : list (list node))
         (pipelineData : list Pipeline),
    pipelineData_of options = Normal pipelineData /\
    select (has_class "companies-wrap") this1
    = Some (Elem "div" (("class", "companies-wrap") :: attrs)
              (map (fun kids => Elem "div" [("class", "phase-companies")] kids) groups)) /\
    List.length (List.concat groups)
    = List.length
        (filter (fun d =>
                   existsb (fun pd => jsstring_eqb (Phase d) (Some pd))
                     (split "," (phases (pipeline (settings_of options)))))
           pipelineData).
Proof.
  destruct (update_companies_selected options this this1 Hwf Hplain Hrun)
    as (attrs & pd & Hpd & Hselect).
  eexists attrs, _, pd. split; [exact Hpd|]. split; [exact Hselect|].
  now apply company_groups_count.
Qed.

End CompaniesArea.


(* ================================================================= *)
(** ** The claims and the further properties at concrete calls *)

#[global] Existing Instance Scenario.browser.

(** The scenario's band markup is one image element: it is plain. *)
Lemma scenario_band_plain (options : VisualUpdateOptions Z) :
  plain_band (settings_of Scenario.parse options).
Proof. intros _ cls [<-|[<-|[<-|[]]]]; reflexivity. Qed.

Lemma scenario_rendered_well_formed : well_formed Scenario.rendered.
Proof.
  apply update_well_formed; [apply constructor_well_formed | apply scenario_band_plain].
Qed.

(** C2 at the scenario's call: one category, coloured with the first
    palette entry. *)
Lemma categoryColorData_derivation_witness :
  exists pipelineData : list Pipeline,
    pipelineData_of Scenario.options = Normal pipelineData /\
    forall (i : nat) (cd : CategoryColor),
      nth_error
        (categoryColorData_of
           (categoryData_of (settings_of Scenario.parse Scenario.options) pipelineData)) i
      = Some cd ->
      color cd = nth_error colors i.
Proof.
  eexists. split; [reflexivity|].
  exact (proj2 (proj2 (proj2 (proj2 (proj2
           (categoryColorData_derivation Scenario.parse Scenario.legend_height
              Scenario.options _ eq_refl)))))).
Defined.

(** C3 at the scenario's call. *)
Lemma update_renders_at_most_250_witness :
  exists pipelineData : list Pipeline,
    pipelineData_of Scenario.options = Normal pipelineData /\
    (List.length pipelineData <= 250)%nat.
Proof.
  destruct (update_renders_at_most_250 Scenario.parse Scenario.legend_height
              Scenario.options (Some Scenario.dataView)
              (convert_rows (locate (columns Scenario.tableView)) (rows Scenario.tableView))
              eq_refl eq_refl)
    as (pipelineData & Hpd & _ & Hlen & _).
  exists pipelineData. split; [exact Hpd | exact Hlen].
Defined.



(** C6, at a data view without a table: [update] throws at the read of
    the rows, after the host was told that rendering started and never
    to be told that it finished; the same happens at an empty list of
    data views. *)
Lemma update_without_table_throws :
  update Scenario.parse Scenario.legend_height Inputs.no_table constructor
  = (Throw (cannot_read "undefined" "rows"),
     entered Scenario.parse Inputs.no_table constructor) /\
  update Scenario.parse Scenario.legend_height Inputs.no_dataView constructor
  = (Throw (cannot_read "undefined" "table"),
     entered Scenario.parse Inputs.no_dataView constructor) /\
  notified (entered Scenario.parse Inputs.no_table constructor) = [RenderingStarted].
Proof. repeat split. Qed.

(** C7 at a visual whose settings are parsed: one record under a phase,
    its category in the mapping, and the report returns. *)
Lemma color_lookup_precondition_witness :
  fst (renderPipelineReport ["Lead"]
         [ {| Title := Some "Acme"; Phase := Some "Lead"; Category := Some "Sales";
              Name := Some "WidgetA" |} ]
         [ {| category := Some "Sales"; color := Some "#2ECC71" |} ]
         (set_settings Categories.unset constructor))
  = Normal tt.
Proof.
  apply (proj1 (proj1 (color_lookup_precondition ["Lead"]
                         [ {| Title := Some "Acme"; Phase := Some "Lead";
                              Category := Some "Sales"; Name := Some "WidgetA" |} ]
                         [ {| category := Some "Sales"; color := Some "#2ECC71" |} ]
                         (set_settings Categories.unset constructor)
                         Categories.unset eq_refl))).
  intros d pd [<-|[]] _ _.
  exists {| category := Some "Sales"; color := Some "#2ECC71" |}.
  split; [left; reflexivity | reflexivity].
Defined.




Lemma constructed_visual_well_formed_witness :
  well_formed
    (after_updates Scenario.parse Scenario.legend_height
       [Scenario.options; Inputs.no_table; Scenario.options] constructor).
Proof.
  apply (constructed_visual_well_formed Scenario.parse Scenario.legend_height
           [Scenario.options; Inputs.no_table; Scenario.options]).
  intros options _. apply scenario_band_plain.
Defined.

Lemma update_notifications_witness :
  notified (snd (update Scenario.parse Scenario.legend_height Scenario.options constructor))
  = [RenderingStarted; RenderingFinished].
Proof.
  exact (update_notifications Scenario.parse Scenario.legend_height Scenario.options
           constructor constructor_well_formed).
Defined.

Lemma update_twice_same_structure_witness :
  exists this2 : Visual,
    update Scenario.parse Scenario.legend_height Scenario.options Scenario.rendered
    = (Normal tt, this2) /\
    header this2 = Elem "div" [("class", "visual-header")] [Scenario.image].
Proof.
  destruct (update_twice_same_structure Scenario.parse Scenario.legend_height
              Scenario.options constructor Scenario.rendered
              constructor_well_formed (scenario_band_plain Scenario.options) eq_refl)
    as (this2 & tag & attrs & pd & h1 & h2 & Hrun & _ & _ & _ & Hheader & _).
  exists this2. split; [exact Hrun | exact Hheader].
Defined.

Lemma update_completes_unconfigured_witness :
  fst (update Scenario.parse Scenario.legend_height Scenario.options constructor) = Normal tt.
Proof.
  exact (update_completes_unconfigured Scenario.parse Scenario.legend_height
           Scenario.options constructor Scenario.dataView [] Scenario.tableView
           constructor_well_formed eq_refl eq_refl eq_refl).
Defined.

Lemma update_unmapped_category_throws_witness :
  fst (update Inputs.restricted Scenario.legend_height Scenario.options constructor)
  = Throw (cannot_read "undefined" "color").
Proof.
  apply (update_unmapped_category_throws Inputs.restricted Scenario.legend_height
           Scenario.options constructor
           (convert_rows (locate (columns Scenario.tableView)) (rows Scenario.tableView))
           {| Title := Some "Acme"; Phase := Some "Lead"; Category := Some "Sales";
              Name := Some "WidgetA" |}
           "Lead" constructor_well_formed eq_refl).
  - left. reflexivity.
  - left. reflexivity.
  - reflexivity.
  - intros cd [<-|[]]. discriminate.
Defined.

Lemma update_without_table_witness :
  exists e : exn,
    update Scenario.parse Scenario.legend_height Inputs.no_table constructor
    = (Throw e, entered Scenario.parse Inputs.no_table constructor).
Proof.
  destruct (update_without_table Scenario.parse Scenario.legend_height Inputs.no_table
              constructor eq_refl) as (e & Hrun & _).
  exists e. exact Hrun.
Defined.

Lemma update_empty_rows_witness :
  exists (this' : Visual) tag attrs (legendWrapHeight : Z),
    update Scenario.parse Scenario.legend_height Inputs.empty_table constructor
    = (Normal tt, this') /\
    target this'
    = Elem tag attrs
        [ Elem "div" [("class", "main-content")]
            [ Elem "div" [("class", "header")] [Elem "p" [] [Text "Pipeline"]];
              Elem "div" [("class", "pipeline-wrap")]
                [ Elem "div" [("class", "pipeline-bar"); ("style", "margin-left:0px;")]
                    [ Elem "div" [("class", "phase")]
                        [ Elem "p" [("class", "phase-text")] [Text "Lead"];
                          Elem "div" [("class", "phase-arrow")] [];
                          Elem "div" [("class", "phase-rope")] [];
                          Elem "div" [("class", "phase-rope-circle")] [] ];
                      Elem "div" [("class", "phase")]
                        [ Elem "p" [("class", "phase-text")] [Text "Closed"];
                          Elem "div" [("class", "phase-arrow")] [];
                          Elem "div" [("class", "phase-rope")] [];
                          Elem "div" [("class", "phase-rope-circle")] [] ] ];
                  Elem "div" [("class", "companies-wrap");
                              ("style", companies_style legendWrapHeight)]
                    [ Elem "div" [("class", "phase-companies")] [];
                      Elem "div" [("class", "phase-companies")] [] ];
                  Elem "div" [("class", "legend-wrap")] [] ] ] ].
Proof.
  destruct (update_empty_rows Scenario.parse Scenario.legend_height Inputs.empty_table
              constructor _ [] _ constructor_well_formed
              (scenario_band_plain Inputs.empty_table) eq_refl eq_refl eq_refl)
    as (this' & tag & attrs & h & Hrun & Htarget & _).
  exists this', tag, attrs, h. split; [exact Hrun | exact Htarget].
Defined.

Lemma update_writes_band_witness :
  header (snd (update Scenario.parse Scenario.legend_height Scenario.options constructor))
  = Elem "div" [("class", "visual-header")] [Elem "img" [("src", "logo.png")] []] /\
  footer (snd (update Scenario.parse Scenario.legend_height Scenario.options constructor))
  = create "div".
Proof.
  exact (proj1 (update_writes_band Scenario.parse Scenario.legend_height Scenario.options
                  constructor _ constructor_well_formed
                  (scenario_band_plain Scenario.options) eq_refl) eq_refl).
Defined.

Lemma bands_stay_witness :
  header (after_updates Inputs.layout_empty Scenario.legend_height
            [Scenario.options; Inputs.no_table] Scenario.rendered)
  = Elem "div" [("class", "visual-header")] [Scenario.image] /\
  footer (after_updates Inputs.layout_empty Scenario.legend_height
            [Scenario.options; Inputs.no_table] Scenario.rendered)
  = create "div".
Proof.
  apply (bands_stay Inputs.layout_empty Scenario.legend_height
           [Scenario.options; Inputs.no_table] Scenario.rendered
           scenario_rendered_well_formed).
  intros options _. split; discriminate.
Defined.

Lemma scroll_moves_phase_bar_witness :
  exists (tag : string) (attrs : list (string * string)) (kids : list node),
    target (snd (update Scenario.parse Scenario.legend_height Scenario.options constructor))
    = Elem tag attrs kids.
Proof.
  destruct (scroll_moves_phase_bar Scenario.parse Scenario.legend_height Scenario.options
              constructor Scenario.rendered
              25 constructor_well_formed (scenario_band_plain Scenario.options) eq_refl)
    as (tag & attrs & pd & h & Htarget & _).
  exists tag, attrs. eexists. exact Htarget.
Defined.

Lemma enumerate_describes_settings_witness :
  settings (snd (update Scenario.parse Scenario.legend_height Scenario.options constructor))
  = Some (Scenario.parse None).
Proof.
  exact (proj1 (enumerate_describes_settings Scenario.parse (Scenario.parse None)
                  Scenario.legend_height (fun (s : VisualSettings) (o : unit) => s) tt
                  Scenario.options constructor constructor_well_formed)).
Defined.

Lemma palette_exhausted_witness :
  exists c : string,
    color {| category := Some "Sales"; color := Some "#2ECC71" |} = Some c /\
    nth_error colors 0 = Some c.
Proof.
  exact (proj1 (palette_exhausted [Some "Sales"] 0
                  {| category := Some "Sales"; color := Some "#2ECC71" |} eq_refl)
           (Nat.lt_0_succ 14)).
Defined.

Lemma shadowed_role_is_null_witness :
  _phaseIndex (locate Inputs.shadowing) = INum (-1) /\
  Phase {| Title := Some "Acme"; Phase := None; Category := None; Name := None |} = None.
Proof.
  apply (shadowed_role_is_null (number := Z) Inputs.shadowing [[PVString "Acme"]]).
  - intros c [<-|[]] _. reflexivity.
  - left. reflexivity.
Defined.

Lemma update_renders_bar_and_legend_witness :
  exists tag attrs (companiesWrap : node),
    target Scenario.rendered
    = Elem tag attrs
        [ Elem "div" [("class", "main-content")]
            [ Elem "div" [("class", "header")] [Elem "p" [] [Text "Pipeline"]];
              Elem "div" [("class", "pipeline-wrap")]
                [ Elem "div" [("class", "pipeline-bar"); ("style", "margin-left:0px;")]
                    [ Elem "div" [("class", "phase")]
                        [ Elem "p" [("class", "phase-text")] [Text "Lead"];
                          Elem "div" [("class", "phase-arrow")] [];
                          Elem "div" [("class", "phase-rope")] [];
                          Elem "div" [("class", "phase-rope-circle")] [] ];
                      Elem "div" [("class", "phase")]
                        [ Elem "p" [("class", "phase-text")] [Text "Closed"];
                          Elem "div" [("class", "phase-arrow")] [];
                          Elem "div" [("class", "phase-rope")] [];
                          Elem "div" [("class", "phase-rope-circle")] [] ] ];
                  companiesWrap;
                  Elem "div" [("class", "legend-wrap")]
                    [ Elem "div" [("class", "legend")]
                        [ Elem "p" [("style", "color:#2ECC71;")] [Text "Sales"] ] ] ] ] ].
Proof.
  destruct (update_renders_bar_and_legend Scenario.parse Scenario.legend_height
              Scenario.options constructor Scenario.rendered
              constructor_well_formed (scenario_band_plain Scenario.options) eq_refl)
    as (tag & attrs & pd & cw & Hpd & Htarget).
  vm_compute in Hpd. injection Hpd as <-.
  exists tag, attrs, cw. exact Htarget.
Defined.

Lemma failed_report_leaves_partial_tree_witness :
  exists tag attrs (kids : list node),
    target (snd (update Inputs.restricted Scenario.legend_height Scenario.options constructor))
    = Elem tag attrs kids.
Proof.
  destruct (failed_report_leaves_partial_tree Inputs.restricted Scenario.legend_height
              Scenario.options constructor _ (cannot_read "undefined" "color")
              constructor_well_formed eq_refl eq_refl)
    as (tag & attrs & companies & _ & Htarget).
  exists tag, attrs. eexists. exact Htarget.
Defined.

Lemma companies_area_bounded_witness :
  exists node_found : node,
    select (has_class "companies-wrap") Scenario.rendered = Some node_found.
Proof.
  destruct (companies_area_bounded Scenario.parse Scenario.legend_height Scenario.options
              constructor Scenario.rendered
              constructor_well_formed (scenario_band_plain Scenario.options) eq_refl)
    as (attrs & groups & Hselect & _).
  eexists. exact Hselect.
Defined.

Lemma unmatched_records_hidden_witness :
  exists pipelineData : list Pipeline,
    pipelineData_of Scenario.options = Normal pipelineData.
Proof.
  destruct (unmatched_records_hidden Scenario.parse Scenario.legend_height Scenario.options
              constructor Scenario.rendered
              constructor_well_formed (scenario_band_plain Scenario.options) eq_refl)
    as (attrs & groups & pd & Hpd & _).
  - repeat constructor; simpl; intuition discriminate.
  - exists pd. exact Hpd.
Defined.
